(** * Remote Home Check scorer: scoring and tier-transition engine

    A shallow embedding of the class [RemoteHomeCheckScorer] of [app.py]:
    the questionnaire and impact tables, response validation, the score
    aggregation with its binary64 arithmetic, the tier classification, the
    care-plan advisor and the validation step of [process_assessment].

    Python integers are [Z]; Python floats are IEEE 754 binary64 values in
    the [spec_float] model of the Standard Library; dictionaries with string
    keys are [gmap string _]; an operation that can raise returns a
    [Py.result]. *)

From Stdlib Require Import ZArith QArith Bool List Lia.
From Stdlib Require Import SpecFloat.
From stdpp Require Import gmap strings list fin_maps.

Local Open Scope string_scope.
Local Open Scope list_scope.
Local Open Scope Z_scope.

(* ===================================================================== *)
(** ** Python values that the scorer relies on *)
(* ===================================================================== *)

Module Py.

(** Exceptions that can escape an operation of the model. *)
Inductive exn :=
| KeyError (key : string)
| Exception (msg : string).

(** The outcome of an expression that may raise. *)
Inductive result (A : Type) :=
| Ok (a : A)
| Raise (e : exn).
Arguments Ok {A} a.
Arguments Raise {A} e.

Definition bind {A B} (f : A → result B) (r : result A) : result B :=
  match r with
  | Ok a => f a
  | Raise e => Raise e
  end.

#[export] Instance result_ret : MRet result := λ A a, Ok a.
#[export] Instance result_bind : MBind result := λ A B f r, bind f r.

(** [k in d] for a dictionary [d]. *)
Definition contains {V} (k : string) (d : gmap string V) : bool :=
  bool_decide (is_Some (d !! k)).

(** [d[k]]: raises [KeyError] on a missing key. *)
Definition getitem {V} (d : gmap string V) (k : string) : result V :=
  match d !! k with
  | Some v => Ok v
  | None => Raise (KeyError k)
  end.

(** [d.get(k, default)]. *)
Definition get {V} (d : gmap string V) (k : string) (dflt : V) : V :=
  default dflt (d !! k).

(** A dictionary display [{k1: v1, ..., kn: vn}]: the entries are stored
    left to right, a later duplicate key replacing an earlier one. *)
Definition dict {V} (entries : list (string * V)) : gmap string V :=
  foldl (λ d kv, <[kv.1 := kv.2]> d) ∅ entries.

(** [x in l] for a list [l] of strings. *)
Definition in_list (x : string) (l : list string) : bool :=
  bool_decide (x ∈ l).

(** Truth value of [None] or a string: [None] and the empty string are
    false. *)
Definition truthy (v : option string) : bool :=
  match v with
  | None => false
  | Some s => negb (bool_decide (s = EmptyString))
  end.

End Py.

(* ===================================================================== *)
(** ** Binary64 floating point, as Python's [float] *)
(* ===================================================================== *)

Module Float64.

Definition prec : Z := 53.
Definition emax : Z := 1024.

Definition float := spec_float.

Definition mul : float → float → float := SFmul prec emax.
Definition add : float → float → float := SFadd prec emax.
Definition div : float → float → float := SFdiv prec emax.

(** [float(n)] for an integer [n], rounded to nearest-even. Every integer
    of magnitude at most 2^53 is converted exactly. *)
Definition of_int (n : Z) : float := binary_normalize prec emax n 0 false.

(** The literal with decimal value [num / den], [den] a power of ten
    ([0.6] is [literal 6 10]). Both operands are exact, so the correctly
    rounded quotient is the double nearest to the decimal, which is what
    reading the literal yields. *)
Definition literal (num den : Z) : float := div (of_int num) (of_int den).

(** [x >= y], [x < y]: false when an operand is NaN. *)
Definition ge (x y : float) : bool := SFleb y x.
Definition lt (x y : float) : bool := SFltb x y.

(** Quotient [n / d] for [0 <= n] and [0 < d], rounded to the nearest
    integer, a tie going to the even one. *)
Definition div_half_even (n d : Z) : Z :=
  let q := n / d in
  match 2 * (n mod d) ?= d with
  | Lt => q
  | Gt => q + 1
  | Eq => if Z.even q then q else q + 1
  end.

(** The magnitude of [m * 2^e] in tenths, rounded half-even. *)
Definition tenths (m : positive) (e : Z) : Z :=
  match e with
  | Zneg p => div_half_even (10 * Zpos m) (2 ^ Zpos p)
  | _ => 10 * Zpos m * 2 ^ e
  end.

(** [round(x, 1)]: the exact binary value of [x] is rounded to one
    decimal, ties to even, and the decimal is read back as the nearest
    double. Zeros, infinities and NaN round to themselves. *)
Definition round1 (x : float) : float :=
  match x with
  | S754_finite s m e =>
      match tenths m e with
      | Zpos k => div (S754_finite s k 0) (of_int 10)
      | _ => S754_zero s
      end
  | _ => x
  end.

(** Bitwise equality of two floats (distinguishes the two zeros). *)
Definition same (x y : float) : bool :=
  match x, y with
  | S754_zero a, S754_zero b => Bool.eqb a b
  | S754_infinity a, S754_infinity b => Bool.eqb a b
  | S754_nan, S754_nan => true
  | S754_finite a m e, S754_finite b n f =>
      Bool.eqb a b && Pos.eqb m n && Z.eqb e f
  | _, _ => false
  end.

End Float64.

(* ===================================================================== *)
(** ** The scorer *)
(* ===================================================================== *)

Module Scorer.
Import Py.

(** An entry of [self.questions]. *)
Record question := Question {
  name : string;
  label : string;
  options : list string
}.

#[export] Instance question_eq_dec : EqDecision question.
Proof. solve_decision. Defined.

Definition questions : list question := [
  Question "fall_risk" "Fall Risk Assessment"
    ["Low"; "Moderate"; "High"];
  Question "medication_adherence" "Medication Adherence"
    ["Excellent (95-100%)"; "Good (80-94%)"; "Fair (65-79%)";
     "Poor (Below 65%)"];
  Question "cognitive_function" "Cognitive Function Score"
    ["Normal (26-30)"; "Mild Impairment (21-25)";
     "Moderate Impairment (10-20)"; "Severe Impairment (0-9)"];
  Question "uti_risk" "UTI Risk Factors"
    ["Low Risk"; "Moderate Risk"; "High Risk"];
  Question "balance_test" "Balance Test Result"
    ["Excellent (45-56 seconds)"; "Good (35-44 seconds)";
     "Fair (25-34 seconds)"; "Poor (Below 25 seconds)"];
  Question "driving_safety" "Driving Safety Status"
    ["Safe Driver"; "Minor Concerns"; "Major Concerns"; "Unsafe to Drive"];
  Question "nighttime_movement" "Nighttime Movement Patterns"
    ["Normal Patterns"; "Slightly Increased"; "Significantly Increased";
     "Concerning Patterns"];
  Question "social_engagement" "Social Engagement Level"
    ["Highly Engaged"; "Moderately Engaged"; "Minimally Engaged";
     "Socially Isolated"];
  Question "toilet_flush_count" "Daily Toilet Flush Count"
    ["Normal (6-8 times)"; "Slightly Elevated (9-12 times)";
     "Elevated (13-16 times)"; "Very High (17+ times)"]
].

Definition base_physical_score : Z := 100.
Definition base_mental_score : Z := 100.

(** An entry [{"physical": p, "mental": m}] of the impact table. *)
Record impact := Impact {
  physical : Z;
  mental : Z
}.

Definition event_impacts : gmap string (gmap string impact) := dict [
  ("fall_risk", dict [
    ("Low", Impact 0 0);
    ("Moderate", Impact (-3) 0);
    ("High", Impact (-8) 0)]);
  ("medication_adherence", dict [
    ("Excellent (95-100%)", Impact 0 0);
    ("Good (80-94%)", Impact 0 0);
    ("Fair (65-79%)", Impact (-1) (-1));
    ("Poor (Below 65%)", Impact (-2) (-2))]);
  ("cognitive_function", dict [
    ("Normal (26-30)", Impact 0 0);
    ("Mild Impairment (21-25)", Impact 0 (-1));
    ("Moderate Impairment (10-20)", Impact 0 (-3));
    ("Severe Impairment (0-9)", Impact 0 (-5))]);
  ("uti_risk", dict [
    ("Low Risk", Impact 0 0);
    ("Moderate Risk", Impact (-2) 0);
    ("High Risk", Impact (-4) 0)]);
  ("balance_test", dict [
    ("Excellent (45-56 seconds)", Impact 0 0);
    ("Good (35-44 seconds)", Impact 0 0);
    ("Fair (25-34 seconds)", Impact (-1) 0);
    ("Poor (Below 25 seconds)", Impact (-2) 0)]);
  ("driving_safety", dict [
    ("Safe Driver", Impact 0 0);
    ("Minor Concerns", Impact (-1) 0);
    ("Major Concerns", Impact (-2) 0);
    ("Unsafe to Drive", Impact (-3) 0)]);
  ("nighttime_movement", dict [
    ("Normal Patterns", Impact 0 0);
    ("Slightly Increased", Impact 0 0);
    ("Significantly Increased", Impact (-1) (-1));
    ("Concerning Patterns", Impact (-2) (-2))]);
  ("social_engagement", dict [
    ("Highly Engaged", Impact 0 0);
    ("Moderately Engaged", Impact 0 0);
    ("Minimally Engaged", Impact 0 (-2));
    ("Socially Isolated", Impact 0 (-4))]);
  ("toilet_flush_count", dict [
    ("Normal (6-8 times)", Impact 0 0);
    ("Slightly Elevated (9-12 times)", Impact 0 0);
    ("Elevated (13-16 times)", Impact (-1) 0);
    ("Very High (17+ times)", Impact (-2) 0)])
].

(** *** [validate_responses] *)

(** One iteration of the loop over [self.questions]; the state is the
    pair [(valid_responses, errors)]. The lookup of [responses[q_name]]
    is guarded by [q_name not in responses], so it cannot raise. *)
Definition validate_step (responses : gmap string string)
    (st : gmap string string * list string) (q : question)
    : gmap string string * list string :=
  let '(valid_responses, errors) := st in
  let q_name := name q in
  match responses !! q_name with
  | None =>
      (valid_responses,
       (errors ++ ["Missing response for " +:+ q_name])%list)
  | Some response =>
      if negb (in_list response (options q)) then
        (valid_responses,
         (errors ++
            ["Invalid response '" +:+ response +:+ "' for " +:+ q_name])%list)
      else
        (<[q_name := response]> valid_responses, errors)
  end.

Definition validate_responses (responses : gmap string string)
    : gmap string string * list string :=
  foldl (validate_step responses) (∅, []) questions.

(** *** [get_insight_tier] *)

Definition get_insight_tier (score : Float64.float) : string :=
  if Float64.ge score (Float64.of_int 90) then "Independent"
  else if Float64.ge score (Float64.of_int 70) then "Monitor"
  else if Float64.ge score (Float64.of_int 50) then "Assist"
  else "Intervene".

(** *** [calculate_scores] *)

Record ScoreResult := {
  physical_score : Z;
  mental_score : Z;
  insight_score : Float64.float;
  tier : string;
  physical_delta : Z;
  mental_delta : Z
}.

(** The body of the loop over [responses.items()], on the accumulator
    [(physical_delta, mental_delta)]. The conjunction of the two
    membership tests is short-circuit. *)
Definition add_impact (question_name response : string) (acc : Z * Z)
    : result (Z * Z) :=
  let '(physical_delta, mental_delta) := acc in
  known ← (if contains question_name event_impacts
           then sub ← getitem event_impacts question_name;
                mret (contains response sub)
           else mret false);
  if (known : bool) then
    sub ← getitem event_impacts question_name;
    impact ← getitem sub response;
    mret (physical_delta + physical impact, mental_delta + mental impact)
  else mret (physical_delta, mental_delta).

Definition sum_deltas (responses : gmap string string) : result (Z * Z) :=
  map_fold (λ question_name response acc,
              acc ≫= add_impact question_name response)
           (Ok (0, 0)) responses.

(** [round(0.6 * physical_score + 0.4 * mental_score, 1)]: the integer
    scores are converted to floats by the multiplications. *)
Definition weighted_insight (physical_score mental_score : Z)
    : Float64.float :=
  Float64.round1
    (Float64.add
       (Float64.mul (Float64.literal 6 10) (Float64.of_int physical_score))
       (Float64.mul (Float64.literal 4 10) (Float64.of_int mental_score))).

Definition calculate_scores (responses : gmap string string)
    : result ScoreResult :=
  '(physical_delta, mental_delta) ← sum_deltas responses;
  let physical_score :=
    Z.max 0 (Z.min 100 (base_physical_score + physical_delta)) in
  let mental_score :=
    Z.max 0 (Z.min 100 (base_mental_score + mental_delta)) in
  let insight_score := weighted_insight physical_score mental_score in
  mret {| physical_score := physical_score;
          mental_score := mental_score;
          insight_score := insight_score;
          tier := get_insight_tier insight_score;
          physical_delta := physical_delta;
          mental_delta := mental_delta |}.

(** *** [get_care_plan_suggestion] *)

Definition suggestions : gmap string string := dict [
  ("Independent",
   "Resume standard monitoring; schedule motivational check-in and goal-setting session");
  ("Monitor",
   "Conduct comprehensive medication reconciliation; recommend a daytime activity or exercise program");
  ("Assist",
   "Arrange part-time home-care aide (e.g., 12h/week); review medication-adherence log");
  ("Intervene",
   "Recommend car-key removal; seek a senior-living community or arrange for a full-time in-home provider; enrol in fall-prevention PT")
].

(** [previous_tier] is [None] when the caller passes nothing (or the
    patient record has no such key), else the string it holds. *)
Definition get_care_plan_suggestion (tier : string)
    (previous_tier : option string) : string :=
  let steady := get suggestions tier "No specific recommendation" in
  if truthy previous_tier && negb (bool_decide (Some tier = previous_tier))
  then
    if bool_decide (tier = "Monitor")
       && bool_decide (previous_tier = Some "Independent")
    then "Schedule balance & home-safety assessment; brief caregiver check-in"
    else if bool_decide (tier = "Assist")
            && bool_decide
                 (previous_tier ∈ [Some "Independent"; Some "Monitor"])
    then "Initiate physical-therapy evaluation; schedule telehealth PCP visit within 72h"
    else if bool_decide (tier = "Intervene")
    then "Convene multidisciplinary care conference (PCP, PT/OT, social worker); consider long-term-care placement"
    else steady
  else steady.

(** *** The assessment document and [validate_assessment_json] *)

(** A field of a JSON object that the code expects to hold an object. *)
Inductive field (A : Type) :=
| Missing
| NotADict
| Dict (a : A).
Arguments Missing {A}.
Arguments NotADict {A}.
Arguments Dict {A} a.

(** The keys of the patient object that the scorer reads; [None] is an
    absent key. *)
Record patient_data := {
  email : option string;
  patient_name : option string;
  previous_tier : option string
}.

Record assessment_data := {
  timestamp : option string;
  patient : field patient_data;
  responses : field (gmap string string);
  assessment_id : option string
}.

Definition present {A} (f : field A) : bool :=
  match f with
  | Missing => false
  | _ => true
  end.

(** The errors are collected in the order of the three checks. *)
Definition validate_assessment_json (a : assessment_data) : list string :=
  let required_fields :=
    [("timestamp", bool_decide (is_Some (timestamp a)));
     ("patient", present (patient a));
     ("responses", present (responses a))] in
  let missing :=
    flat_map (λ f : string * bool,
                if f.2 then [] else ["Missing required field: " +:+ f.1])
             required_fields in
  let patient_errors :=
    match patient a with
    | Missing => []
    | NotADict => ["Patient field must be a dictionary"]
    | Dict p =>
        match email p with
        | None => ["Missing patient email"]
        | Some _ => []
        end
    end in
  let response_errors :=
    match responses a with
    | Missing => []
    | NotADict => ["Responses field must be a dictionary"]
    | Dict r => (validate_responses r).2
    end in
  (missing ++ patient_errors ++ response_errors)%list.

(** *** [process_assessment] *)

(** The dictionaries [process_assessment] returns. *)
Inductive outcome :=
| ErrorResult (error : string) (details : list string)
| ProcessingFailed (details : exn)
| Success (email_sent : bool) (id : option string) (scores : ScoreResult)
    (pdf_file : string).

(** [assessment_data.get(key, {})] followed by a [.get] on the value: a
    value that is no object has no such method. *)
Definition field_get {A} (f : field A) (dflt : A) : result A :=
  match f with
  | Missing => Ok dflt
  | Dict a => Ok a
  | NotADict => Raise (Exception "AttributeError")
  end.

Definition no_patient : patient_data :=
  {| email := None; patient_name := None; previous_tier := None |}.

(** Truth value of a list. *)
Definition nonempty {A} (l : list A) : bool :=
  match l with
  | [] => false
  | _ => true
  end.

Section Collaborators.

(** Persistence, report rendering and mail are outside the engine: they
    are taken as they come. The three writers may raise; [send_email]
    catches its own exceptions and reports a boolean. *)
Variable save_assessment_json : assessment_data → ScoreResult → result string.
Variable save_to_csv : assessment_data → ScoreResult → result string.
Variable generate_pdf : assessment_data → ScoreResult → result string.
Variable email_body :
  option string → ScoreResult → option string → string → string.
Variable send_email :
  option string → string → string → assessment_data → ScoreResult → bool.

(** The body of the [try] block. *)
Definition process (a : assessment_data) : result outcome :=
  let errors := validate_assessment_json a in
  if nonempty errors then
    mret (ErrorResult "Invalid assessment data" errors)
  else
    p ← field_get (patient a) no_patient;
    r ← field_get (responses a) ∅;
    let '(valid_responses, response_errors) := validate_responses r in
    if nonempty response_errors then
      mret (ErrorResult "Invalid responses" response_errors)
    else
      scores ← calculate_scores valid_responses;
      _ ← save_assessment_json a scores;
      _ ← save_to_csv a scores;
      pdf_file ← generate_pdf a scores;
      let body :=
        email_body (patient_name p) scores (previous_tier p)
          (get_care_plan_suggestion (tier scores) (previous_tier p)) in
      let email_sent :=
        send_email (email p) "Remote Home Check Assessment Results" body
          a scores in
      mret (Success email_sent (assessment_id a) scores pdf_file).

(** Any exception of the block becomes a [Processing failed] result. *)
Definition process_assessment (a : assessment_data) : outcome :=
  match process a with
  | Ok r => r
  | Raise e => ProcessingFailed e
  end.

End Collaborators.

End Scorer.

(* ===================================================================== *)
(** ** The vocabulary of the specification *)
(* ===================================================================== *)

Module Spec.
Import Py Scorer.

(** The four care-urgency tiers, and the string the code uses for each. *)
Inductive Tier := Independent | Monitor | Assist | Intervene.

Definition tier_name (t : Tier) : string :=
  match t with
  | Independent => "Independent"
  | Monitor => "Monitor"
  | Assist => "Assist"
  | Intervene => "Intervene"
  end.

(** The advisor's contract [advise(tier, previous_tier | absent)], which
    the code implements on the tiers' names. *)
Definition advise (t : Tier) (previous : option Tier) : string :=
  get_care_plan_suggestion (tier_name t) (tier_name <$> previous).

(** [clamp(x, lo, hi)]: a hard floor and ceiling. *)
Definition clamp (x lo hi : Z) : Z :=
  if (x <? lo)%Z then lo else if (hi <? x)%Z then hi else x.

(** The impact an entry resolves to: the table's entry, or nothing for an
    entry the table does not have. *)
Definition resolve (question_name response : string) : option impact :=
  event_impacts !! question_name ≫= λ sub, sub !! response.

(** An entry is unresolvable when its question is not a key of the impact
    table, or its option is not a key of the question's sub-table. *)
Definition unresolvable (question_name response : string) : Prop :=
  event_impacts !! question_name = None ∨
  ∃ sub, event_impacts !! question_name = Some sub ∧ sub !! response = None.

(** The deltas an entry contributes to the two sums. *)
Definition delta (question_name response : string) : Z * Z :=
  match resolve question_name response with
  | Some i => (physical i, mental i)
  | None => (0, 0)
  end.

(** The violation, if any, that a question finds in a responses mapping. *)
Definition violation (responses : gmap string string) (q : question)
    : option string :=
  match responses !! name q with
  | None => Some ("Missing response for " +:+ name q)
  | Some v =>
      if bool_decide (v ∈ options q) then None
      else Some ("Invalid response '" +:+ v +:+ "' for " +:+ name q)
  end.

(** A responses mapping passes validation when no error is reported. *)
Definition valid (responses : gmap string string) : Prop :=
  (validate_responses responses).2 = [].

(** The decimal [k / 10] as a float. *)
Definition of_tenths (k : Z) : Float64.float := Float64.literal k 10.

(** The weighted sum [0.6 * p + 0.4 * m] in exact rational arithmetic. *)
Definition exact_weighted (p m : Z) : Q :=
  ((6 # 10) * inject_Z p + (4 # 10) * inject_Z m)%Q.

(** A non-negative rational rounded to one decimal, as a whole number of
    tenths, under the two usual conventions for a tie. *)
Definition tenths_half_even (q : Q) : Z :=
  let t := (q * inject_Z 10)%Q in
  Float64.div_half_even (Qnum t) (Zpos (Qden t)).

Definition tenths_half_up (q : Q) : Z :=
  let t := (q * inject_Z 10)%Q in
  (2 * Qnum t + Zpos (Qden t)) / (2 * Zpos (Qden t)).

(** The float computation agrees with the exact one on every pair of
    scores of the given range (a decidable check). *)
Definition insight_table_ok (lo hi : Z) : bool :=
  forallb (λ p,
    forallb (λ m,
      Float64.same (weighted_insight p m) (of_tenths (6 * p + 4 * m)))
      (seqZ lo (hi - lo + 1)))
    (seqZ lo (hi - lo + 1)).

(** Componentwise sum of two pairs of deltas. *)
Definition plus2 (a b : Z * Z) : Z * Z := (a.1 + b.1, a.2 + b.2).

(** The sum of the deltas of all entries of a responses mapping. *)
Definition total_delta (responses : gmap string string) : Z * Z :=
  map_fold (λ q o acc, plus2 acc (delta q o)) (0, 0) responses.

(** What the entry for [q], if any, contributes. *)
Definition contribution (q : string) (responses : gmap string string)
    : Z * Z :=
  match responses !! q with
  | Some o => delta q o
  | None => (0, 0)
  end.

(** The lowest deltas any option of a question carries in the table. *)
Definition floor (q : string) : Z * Z :=
  match event_impacts !! q with
  | Some sub =>
      map_fold (λ _ i acc, (Z.min (physical i) acc.1, Z.min (mental i) acc.2))
               (0, 0) sub
  | None => (0, 0)
  end.

Definition floors (qs : list string) : Z * Z :=
  foldr (λ q acc, plus2 (floor q) acc) (0, 0) qs.

Definition question_names : list string := name <$> questions.

(** Every question answered with the option of highest impact. *)
Definition worst_case : gmap string string := dict [
  ("fall_risk", "High");
  ("medication_adherence", "Poor (Below 65%)");
  ("cognitive_function", "Severe Impairment (0-9)");
  ("uti_risk", "High Risk");
  ("balance_test", "Poor (Below 25 seconds)");
  ("driving_safety", "Unsafe to Drive");
  ("nighttime_movement", "Concerning Patterns");
  ("social_engagement", "Socially Isolated");
  ("toilet_flush_count", "Very High (17+ times)")
].

(** The tier of a score given as a whole number of tenths. *)
Definition tier_of_tenths (k : Z) : string :=
  if 900 <=? k then "Independent"
  else if 700 <=? k then "Monitor"
  else if 500 <=? k then "Assist"
  else "Intervene".

(** Decidable checks over a range of tenths: the tier the code assigns,
    and a lower bound on the float. *)
Definition tier_table_ok (lo hi : Z) : bool :=
  forallb (λ k,
    String.eqb (get_insight_tier (of_tenths k)) (tier_of_tenths k))
    (seqZ lo (hi - lo + 1)).

Definition ge_table_ok (bound : Float64.float) (lo hi : Z) : bool :=
  forallb (λ k, Float64.ge (of_tenths k) bound) (seqZ lo (hi - lo + 1)).

(** In [r] the question [q] is answered with an option of its own whose
    deltas are the lowest among the options of [q]. *)
Definition highest_impact (r : gmap string string) (q : question) : Prop :=
  ∃ o, r !! name q = Some o ∧ o ∈ options q ∧
       Forall (λ o', (delta (name q) o).1 ≤ (delta (name q) o').1 ∧
                     (delta (name q) o).2 ≤ (delta (name q) o').2)
              (options q).

(** An assessment document with one answer that is no option and seven
    questions left out. *)
Definition sample_assessment : assessment_data :=
  {| timestamp := Some "2024-01-01T00:00:00";
     patient := Dict {| email := Some "patient@example.org";
                        patient_name := None;
                        previous_tier := None |};
     responses := Dict (dict [("fall_risk", "High"); ("uti_risk", "Severe")]);
     assessment_id := None |}.

End Spec.

(* ===================================================================== *)
(** ** Mail configuration *)
(* ===================================================================== *)

Module Mail.
Import Py Scorer.

(** The keys of [self.smtp_config] that the code reads; [None] is an
    absent key (or a [None] value, which [.get] does not tell apart). *)
Record smtp_config := {
  server : option string;
  port : option Z;
  username : option string;
  password : option string
}.

(** Truth value of [None] or an integer: [None] and zero are false. *)
Definition truthy_int (v : option Z) : bool :=
  match v with
  | None => false
  | Some n => negb (n =? 0)
  end.

(** Truth value of the dictionary itself, as far as these keys show it:
    a dictionary with none of them is taken to be empty. *)
Definition has_keys (c : smtp_config) : bool :=
  bool_decide (is_Some (server c)) || bool_decide (is_Some (port c))
  || bool_decide (is_Some (username c)) || bool_decide (is_Some (password c)).

(** The guard of [send_email]:
    [not self.smtp_config or not all([server, port, username, password])]. *)
Definition smtp_missing (c : smtp_config) : bool :=
  negb (has_keys c)
  || negb (forallb id [truthy (server c); truthy_int (port c);
                       truthy (username c); truthy (password c)]).

(** The flag [smtp_configured] of the [/check-smtp] route:
    [bool(config and server and username and password)]. *)
Definition check_smtp_configured (c : smtp_config) : bool :=
  has_keys c && truthy (server c) && truthy (username c)
  && truthy (password c).

Section Transport.

(** Building the message, rendering the attachment and talking to the
    server: the body of the [try] block, which may raise. *)
Variable deliver :
  smtp_config → option string → string → string → assessment_data →
  ScoreResult → result unit.

(** [send_email]: refuses without a complete configuration, and turns
    any exception of the delivery into [False]. *)
Definition send_email (c : smtp_config) (to_email : option string)
    (subject body : string) (a : assessment_data) (scores : ScoreResult)
    : bool :=
  if smtp_missing c then false
  else
    match deliver c to_email subject body a scores with
    | Ok _ => true
    | Raise _ => false
    end.

End Transport.

End Mail.

(* ===================================================================== *)
(** ** The CSV row of [save_to_csv] *)
(* ===================================================================== *)

Module Csv.
Import Py Scorer Spec.

(** A value of a CSV row. *)
Inductive cell :=
| Text (s : string)
| Int (n : Z)
| Float (x : Float64.float).

(** A Python dictionary as the writer sees it: the keys in the order of
    their first insertion. *)
Definition row := list (string * cell).

(** [data[k] = v]: an existing key keeps its place. *)
Fixpoint setitem (k : string) (v : cell) (d : row) : row :=
  match d with
  | [] => [(k, v)]
  | (k', v') :: d' =>
      if bool_decide (k = k') then (k, v) :: d'
      else (k', v') :: setitem k v d'
  end.

(** [d.get(key, "")] on a string-valued key. *)
Definition text (v : option string) : cell := Text (default EmptyString v).

(** The dictionary [data] that [save_to_csv] writes as one row. The
    assessment id and the time are drawn by the function itself; [age]
    and [gender] stand for the values of two patient keys that the
    scorer reads nowhere else. *)
Definition csv_row (assessment_id processed_at : string) (age gender : cell)
    (a : assessment_data) (scores : ScoreResult) : result row :=
  patient_data ← field_get (patient a) no_patient;
  let data :=
    [("assessment_id", Text assessment_id);
     ("timestamp", text (timestamp a));
     ("processed_at", Text processed_at);
     ("email", text (email patient_data));
     ("name", text (patient_name patient_data));
     ("age", age);
     ("gender", gender);
     ("physical_score", Int (physical_score scores));
     ("mental_score", Int (mental_score scores));
     ("insight_score", Float (insight_score scores));
     ("tier", Text (tier scores));
     ("physical_delta", Int (physical_delta scores));
     ("mental_delta", Int (mental_delta scores))] in
  responses ← field_get (responses a) ∅;
  mret (foldl (λ data question,
                 setitem (name question)
                   (Text (get responses (name question) EmptyString)) data)
              data questions).

(** The value in the column [k]. *)
Fixpoint column (k : string) (d : row) : option cell :=
  match d with
  | [] => None
  | (k', v) :: d' => if bool_decide (k = k') then Some v else column k d'
  end.

(** The header of the CSV files. *)
Definition fieldnames : list string :=
  ["assessment_id"; "timestamp"; "processed_at"; "email"; "name"; "age";
   "gender"; "physical_score"; "mental_score"; "insight_score"; "tier";
   "physical_delta"; "mental_delta"] ++ question_names.

End Csv.

(* ===================================================================== *)
(** ** Bodies that are no JSON object *)
(* ===================================================================== *)

Module Document.
Import Py Scorer.

(** A JSON value handed to [process_assessment]. The membership tests
    and subscripts of [validate_assessment_json] tell three kinds apart:
    [null], a boolean or a number, on which [field not in assessment_data]
    raises a [TypeError]; a string or an array, on which the test is a
    substring or membership test ([has]) and a subscript by a string
    raises a [TypeError]; and an object. *)
Inductive document :=
| Scalar
| Sequence (has : string → bool)
| Object (a : assessment_data).

(** [validate_assessment_json] on any JSON value: the loop over the
    required fields, then the subscripts [assessment_data["patient"]] and
    [assessment_data["responses"]], each behind its membership test. *)
Definition validate_document (d : document) : result (list string) :=
  match d with
  | Scalar => Raise (Exception "TypeError")
  | Sequence has =>
      let missing :=
        flat_map (λ field : string,
                    if has field then []
                    else ["Missing required field: " +:+ field])
                 ["timestamp"; "patient"; "responses"] in
      if has "patient" then Raise (Exception "TypeError")
      else if has "responses" then Raise (Exception "TypeError")
      else Ok missing
  | Object a => Ok (validate_assessment_json a)
  end.

Section Collaborators.

Variable save_assessment_json : assessment_data → ScoreResult → result string.
Variable save_to_csv : assessment_data → ScoreResult → result string.
Variable generate_pdf : assessment_data → ScoreResult → result string.
Variable email_body :
  option string → ScoreResult → option string → string → string.
Variable send_email :
  option string → string → string → assessment_data → ScoreResult → bool.

(** [process_assessment] on any JSON value. A value that is no object
    and passes the validation has no method [get]. *)
Definition process_document (d : document) : outcome :=
  match d with
  | Object a =>
      process_assessment save_assessment_json save_to_csv generate_pdf
        email_body send_email a
  | _ =>
      match validate_document d with
      | Raise e => ProcessingFailed e
      | Ok errors =>
          if nonempty errors then
            ErrorResult "Invalid assessment data" errors
          else ProcessingFailed (Exception "AttributeError")
      end
  end.

End Collaborators.

End Document.

(* ===================================================================== *)
(** ** Further vocabulary *)
(* ===================================================================== *)

Module Vocabulary.
Import Py Scorer Spec.

(** The question is answered with one of its options. *)
Definition answered (r : gmap string string) (q : question) : Prop :=
  ∃ v, r !! name q = Some v ∧ v ∈ options q.

(** The order of the tiers by wellbeing, on the tiers and on their names
    (any other string ranks lowest). *)
Definition rank (t : Tier) : Z :=
  match t with
  | Independent => 3
  | Monitor => 2
  | Assist => 1
  | Intervene => 0
  end.

Definition tier_rank (tier : string) : Z :=
  if bool_decide (tier = "Independent") then 3
  else if bool_decide (tier = "Monitor") then 2
  else if bool_decide (tier = "Assist") then 1
  else 0.

(** The names of the four tiers. *)
Definition tier_names : list string :=
  tier_name <$> [Independent; Monitor; Assist; Intervene].

(** An assessment document that [validate_assessment_json] has nothing
    to say about. *)
Definition well_formed (a : assessment_data) : Prop :=
  is_Some (timestamp a) ∧
  ∃ p r, patient a = Dict p ∧ is_Some (email p) ∧
         responses a = Dict r ∧ valid r.

(** The score result that no deduction leads to. *)
Definition perfect : ScoreResult :=
  {| physical_score := 100;
     mental_score := 100;
     insight_score := Float64.of_int 100;
     tier := "Independent";
     physical_delta := 0;
     mental_delta := 0 |}.

(** An assessment document with nothing missing, every question
    answered. *)
Definition complete_assessment : assessment_data :=
  {| timestamp := Some "2024-01-01T00:00:00";
     patient := Dict {| email := Some "patient@example.org";
                        patient_name := Some "Pat";
                        previous_tier := Some "Independent" |};
     responses := Dict worst_case;
     assessment_id := Some "a-1" |}.

(** The mail configuration that [__init__] falls back to when it is
    given none and the environment sets none of the four variables. *)
Definition fallback_config : Mail.smtp_config :=
  {| Mail.server := Some EmptyString;
     Mail.port := Some 587;
     Mail.username := Some EmptyString;
     Mail.password := Some EmptyString |}.

(** The value of the key [error] in a dictionary that
    [process_assessment] returns, if it has one. *)
Definition error_key (o : outcome) : option string :=
  match o with
  | ErrorResult error _ => Some error
  | ProcessingFailed _ => Some "Processing failed"
  | Success _ _ _ _ => None
  end.

(** The escalation text for the move from Independent to Monitor. *)
Definition balance_text : string :=
  "Schedule balance & home-safety assessment; brief caregiver check-in".

End Vocabulary.

Import Py Scorer Spec Vocabulary.

(* ===================================================================== *)
(** ** Comparison of floats *)
(* ===================================================================== *)

Section FloatOrder.

Lemma compare_cont_swap (m n : positive) :
  Pos.compare_cont Eq n m = CompOpp (Pos.compare_cont Eq m n).
Proof. by rewrite Pos.compare_cont_antisym. Qed.

(** Swapping the operands of a comparison reverses its result. *)
Lemma SFcompare_swap (x y : spec_float) :
  SFcompare y x = CompOpp <$> SFcompare x y.
Proof.
  destruct x as [sx|sx| |sx mx ex], y as [sy|sy| |sy my ey]; simpl;
    try done; try (by destruct sx); try (by destruct sy);
    try (by destruct sx, sy).
  destruct sx, sy; simpl; try done; f_equal;
    rewrite (Z.compare_antisym ex ey);
    destruct (ex ?= ey); simpl; try done;
    rewrite (compare_cont_swap mx my);
    by destruct (Pos.compare_cont Eq mx my).
Qed.

Lemma lt_not_ge (x y : Float64.float) :
  Float64.lt x y = true → Float64.ge x y = false.
Proof.
  unfold Float64.lt, Float64.ge, SFltb, SFleb.
  rewrite (SFcompare_swap x y).
  by destruct (SFcompare x y) as [[]|].
Qed.

End FloatOrder.

(* ===================================================================== *)
(** ** The static tables *)
(* ===================================================================== *)

(** Every entry of the impact table lies between the floor of its question
    and zero; in particular between -8 and 0. *)
Lemma event_impacts_range :
  map_Forall (λ q sub,
    map_Forall (λ _ i,
      (-8 ≤ (floor q).1 ∧ (floor q).1 ≤ physical i ∧ physical i ≤ 0) ∧
      (-8 ≤ (floor q).2 ∧ (floor q).2 ≤ mental i ∧ mental i ≤ 0)) sub)
    event_impacts.
Proof. compute_done. Qed.

(** The keys of the impact table are question names. *)
Lemma event_impacts_keys :
  map_Forall (λ q _, q ∈ question_names) event_impacts.
Proof. compute_done. Qed.

(** Every option of every question has an entry. *)
Lemma questions_covered :
  Forall (λ q, Forall (λ o, is_Some (resolve (name q) o)) (options q))
         questions.
Proof. compute_done. Qed.

Lemma floors_questions : floors question_names = (-23, -13).
Proof. reflexivity. Qed.

Lemma resolve_Some q o i :
  resolve q o = Some i ↔
  ∃ sub, event_impacts !! q = Some sub ∧ sub !! o = Some i.
Proof.
  unfold resolve. destruct (event_impacts !! q) as [sub|]; simpl.
  - split; [eauto | by intros (? & [= <-] & ?)].
  - split; [done | by intros (? & ? & ?)].
Qed.

Lemma resolve_None q o : resolve q o = None ↔ unresolvable q o.
Proof.
  unfold resolve, unresolvable.
  destruct (event_impacts !! q) as [sub|]; simpl.
  - split; [eauto | by intros [? | (? & [= <-] & ?)]].
  - split; [by left | done].
Qed.

Lemma delta_unresolvable q o : unresolvable q o → delta q o = (0, 0).
Proof. intros H%resolve_None. unfold delta. by rewrite H. Qed.

Lemma floor_nonpos q : (floor q).1 ≤ 0 ∧ (floor q).2 ≤ 0.
Proof.
  assert (map_Forall (λ q _, (floor q).1 ≤ 0 ∧ (floor q).2 ≤ 0)
            event_impacts) as Hall by compute_done.
  destruct (event_impacts !! q) as [sub|] eqn:Hq.
  - exact (map_Forall_lookup_1 _ _ _ _ Hall Hq).
  - unfold floor. rewrite Hq. simpl. lia.
Qed.

(** The deltas of any entry lie between the floor of its question and 0. *)
Lemma delta_range q o :
  ((floor q).1 ≤ (delta q o).1 ≤ 0) ∧ ((floor q).2 ≤ (delta q o).2 ≤ 0).
Proof.
  pose proof (floor_nonpos q) as Hf.
  unfold delta. destruct (resolve q o) as [i|] eqn:Hr.
  - apply resolve_Some in Hr as (sub & Hq & Ho).
    pose proof (map_Forall_lookup_1 _ _ _ _ event_impacts_range Hq) as Hs.
    pose proof (map_Forall_lookup_1 _ _ _ _ Hs Ho) as H. simpl in *. lia.
  - simpl. lia.
Qed.

Lemma contribution_range q r :
  ((floor q).1 ≤ (contribution q r).1 ≤ 0) ∧
  ((floor q).2 ≤ (contribution q r).2 ≤ 0).
Proof.
  unfold contribution. destruct (r !! q) as [o|].
  - apply delta_range.
  - pose proof (floor_nonpos q). simpl. lia.
Qed.

(** An entry whose question is not one of the nine contributes nothing. *)
Lemma delta_foreign q o : q ∉ question_names → delta q o = (0, 0).
Proof.
  intros Hq. apply delta_unresolvable. left.
  destruct (event_impacts !! q) as [sub|] eqn:E; [|done].
  destruct Hq. exact (map_Forall_lookup_1 _ _ _ _ event_impacts_keys E).
Qed.


(* ===================================================================== *)
(** ** The loop of [calculate_scores] *)
(* ===================================================================== *)

Section Deltas.

Implicit Types (r : gmap string string) (q o : string).

(** One iteration adds the deltas the entry resolves to, and never
    raises: each subscript is guarded by the membership test before it. *)
Lemma add_impact_delta q o acc :
  add_impact q o acc = Ok (plus2 acc (delta q o)).
Proof.
  destruct acc as [pd md].
  unfold add_impact, delta, resolve, contains, getitem, plus2.
  destruct (event_impacts !! q) as [sub|]; simpl.
  - destruct (sub !! o) as [i|]; simpl; [done|].
    do 2 f_equal; lia.
  - do 2 f_equal; lia.
Qed.

Lemma plus2_swap (a b c : Z * Z) : plus2 (plus2 a b) c = plus2 (plus2 a c) b.
Proof. unfold plus2. simpl. f_equal; lia. Qed.

Lemma plus2_zero (a : Z * Z) : plus2 a (0, 0) = a.
Proof. destruct a. unfold plus2. simpl. f_equal; lia. Qed.

(** The loop computes the sum of the deltas of the entries. *)
Lemma sum_deltas_total r : sum_deltas r = Ok (total_delta r).
Proof.
  unfold sum_deltas, total_delta. rewrite !map_fold_foldr.
  induction (map_to_list r) as [|[q o] l IH]; simpl; [done|].
  rewrite IH. simpl. apply add_impact_delta.
Qed.

Lemma total_delta_empty : total_delta ∅ = (0, 0).
Proof. unfold total_delta. by rewrite map_fold_empty. Qed.

(** The order in which the entries are visited is immaterial. *)
Lemma total_delta_insert r q o :
  r !! q = None → total_delta (<[q:=o]> r) = plus2 (total_delta r) (delta q o).
Proof.
  intros Hq. unfold total_delta.
  rewrite map_fold_insert_L; [done| |done].
  intros. apply plus2_swap.
Qed.

Lemma total_delta_delete r q o :
  r !! q = Some o → total_delta r = plus2 (total_delta (delete q r)) (delta q o).
Proof.
  intros Hq. unfold total_delta.
  rewrite (map_fold_delete_L _ _ q o r); [done| |done].
  intros. apply plus2_swap.
Qed.

Lemma total_delta_split q r :
  total_delta r = plus2 (total_delta (delete q r)) (contribution q r).
Proof.
  unfold contribution. destruct (r !! q) as [o|] eqn:Hq.
  - by apply total_delta_delete.
  - by rewrite delete_id, plus2_zero.
Qed.

(** A mapping none of whose entries resolves sums to zero. *)
Lemma total_delta_unresolved r :
  (∀ q o, r !! q = Some o → delta q o = (0, 0)) → total_delta r = (0, 0).
Proof.
  induction r as [|q o r Hq IH] using map_ind; intros Hall.
  - apply total_delta_empty.
  - rewrite total_delta_insert by done.
    rewrite (Hall q o) by apply lookup_insert_eq.
    rewrite plus2_zero. apply IH. intros q' o' H'.
    apply Hall. rewrite lookup_insert_ne; [done|]. congruence.
Qed.

(** Lower bound of the sums: once the entries of the questions [qs] are
    set aside, what remains resolves to nothing. *)
Lemma total_delta_floors (qs : list string) r :
  (∀ q o, r !! q = Some o → q ∉ qs → delta q o = (0, 0)) →
  ((floors qs).1 ≤ (total_delta r).1 ≤ 0) ∧
  ((floors qs).2 ≤ (total_delta r).2 ≤ 0).
Proof.
  revert r. induction qs as [|k qs IH]; intros r Hrest.
  - rewrite total_delta_unresolved; [simpl; lia|].
    intros q o Hq. apply (Hrest q o Hq). apply not_elem_of_nil.
  - rewrite (total_delta_split k r).
    pose proof (contribution_range k r) as Hk.
    destruct (IH (delete k r)) as [Hp Hm].
    { intros q o [Hne Hq]%lookup_delete_Some Hnin.
      apply (Hrest q o Hq). rewrite not_elem_of_cons. by split. }
    unfold floors in *. simpl in *. lia.
Qed.

(** Whatever the responses, the sums stay within the table's reach. *)
Lemma total_delta_range r :
  (-23 ≤ (total_delta r).1 ≤ 0) ∧ (-13 ≤ (total_delta r).2 ≤ 0).
Proof.
  pose proof (total_delta_floors question_names r) as H.
  rewrite floors_questions in H. apply H.
  intros q o _. apply delta_foreign.
Qed.

End Deltas.

(* ===================================================================== *)
(** ** Score aggregation *)
(* ===================================================================== *)

Section Aggregation.

Implicit Types (r : gmap string string) (q o : string).

(** [calculate_scores] returns, and its result is determined by the sum
    of the deltas. *)
Lemma calculate_scores_eq r :
  calculate_scores r =
  let d := total_delta r in
  let p := Z.max 0 (Z.min 100 (100 + d.1)) in
  let m := Z.max 0 (Z.min 100 (100 + d.2)) in
  Ok {| physical_score := p;
        mental_score := m;
        insight_score := weighted_insight p m;
        tier := get_insight_tier (weighted_insight p m);
        physical_delta := d.1;
        mental_delta := d.2 |}.
Proof.
  unfold calculate_scores. rewrite sum_deltas_total.
  by destruct (total_delta r).
Qed.

Lemma max_min_clamp (x : Z) : Z.max 0 (Z.min 100 x) = clamp x 0 100.
Proof.
  unfold clamp.
  destruct (Z.ltb_spec x 0), (Z.ltb_spec 100 x); lia.
Qed.

(** C3: for every responses mapping (in particular one that holds only
    known pairs) [calculate_scores] returns a result whose deltas are the
    sums over the entries, whose physical and mental scores are
    [clamp(100 + delta, 0, 100)], and both scores lie in [0, 100]. *)
Theorem scores_clamped r :
  ∃ s, calculate_scores r = Ok s ∧
       (physical_delta s, mental_delta s) = total_delta r ∧
       physical_score s = clamp (100 + physical_delta s) 0 100 ∧
       mental_score s = clamp (100 + mental_delta s) 0 100 ∧
       (0 ≤ physical_score s ≤ 100) ∧ (0 ≤ mental_score s ≤ 100).
Proof.
  rewrite calculate_scores_eq. eexists. split; [reflexivity|]. simpl.
  split; [by destruct (total_delta r)|].
  rewrite <- !max_min_clamp. repeat split; lia.
Qed.

(** An unresolvable entry leaves the sums as they are. *)
Lemma total_delta_insert_unresolvable r q o :
  r !! q = None → unresolvable q o →
  total_delta (<[q:=o]> r) = total_delta r.
Proof.
  intros Hq Hu. rewrite total_delta_insert by done.
  by rewrite delta_unresolvable, plus2_zero.
Qed.

(** The same fact read the other way: removing an unresolvable entry
    changes nothing. *)
Lemma unresolvable_entry_removed r q o :
  r !! q = Some o → unresolvable q o →
  calculate_scores (delete q r) = calculate_scores r.
Proof.
  intros Hq Hu. rewrite !calculate_scores_eq.
  rewrite (total_delta_delete r q o Hq).
  by rewrite delta_unresolvable, plus2_zero.
Qed.

(** C7: an entry [(q, o)] whose question is not in the impact table, or
    whose option is not in the question's sub-table, is skipped: adding it
    to a responses mapping [r] (which has no entry for [q] yet) gives the
    same result as [r] itself, and no error is raised. *)
Theorem unresolvable_entry_skipped r q o :
  r !! q = None → unresolvable q o →
  calculate_scores (<[q:=o]> r) = calculate_scores r ∧
  ∃ s, calculate_scores (<[q:=o]> r) = Ok s.
Proof.
  intros Hq Hu. rewrite !calculate_scores_eq.
  rewrite total_delta_insert_unresolvable by done.
  split; [done | by eexists].
Qed.

Lemma unresolvable_entry_skipped_witness :
  let r : gmap string string := {[ "fall_risk" := "High" ]} in
  calculate_scores (<["fall_risk_v2" := "Severe"]> r) = calculate_scores r ∧
  calculate_scores (<["uti_risk" := "Unknown"]> r) = calculate_scores r.
Proof.
  intros r. split.
  - apply (unresolvable_entry_skipped r "fall_risk_v2" "Severe");
      [reflexivity | left; reflexivity].
  - apply (unresolvable_entry_skipped r "uti_risk" "Unknown");
      [reflexivity | right; eexists; split; reflexivity].
Defined.

(** Replacing an entry that did resolve is a different matter: the delta
    of the replaced entry is lost. *)
Example overwriting_resolved_entry :
  let r : gmap string string := {[ "fall_risk" := "High" ]} in
  (∃ s, calculate_scores r = Ok s ∧ physical_score s = 92) ∧
  (∃ s, calculate_scores (<["fall_risk" := "Unknown"]> r) = Ok s ∧
        physical_score s = 100).
Proof. split; eexists; split; reflexivity. Qed.

End Aggregation.

(* ===================================================================== *)
(** ** The invariant of the impact table *)
(* ===================================================================== *)

(** C9: every option of every question definition has an entry in the
    impact table, and every delta of the table is an integer between -8
    and 0. *)
Theorem impact_table_invariant :
  (∀ q o, q ∈ questions → o ∈ options q →
     ∃ sub i, event_impacts !! name q = Some sub ∧ sub !! o = Some i) ∧
  (∀ q sub o i, event_impacts !! q = Some sub → sub !! o = Some i →
     (-8 ≤ physical i ≤ 0) ∧ (-8 ≤ mental i ≤ 0)).
Proof.
  split.
  - intros q o Hq Ho.
    pose proof questions_covered as Hall.
    rewrite Forall_forall in Hall. specialize (Hall q Hq).
    rewrite Forall_forall in Hall. destruct (Hall o Ho) as [i Hi].
    apply resolve_Some in Hi as (sub & ? & ?). by exists sub, i.
  - intros q sub o i Hq Ho.
    pose proof (map_Forall_lookup_1 _ _ _ _ event_impacts_range Hq) as Hs.
    pose proof (map_Forall_lookup_1 _ _ _ _ Hs Ho) as H. simpl in H. lia.
Qed.

Lemma impact_table_invariant_witness :
  (∃ sub i, event_impacts !! "uti_risk" = Some sub ∧
            sub !! "High Risk" = Some i) ∧
  (-8 ≤ -4 ≤ 0) ∧ (-8 ≤ 0 ≤ 0).
Proof.
  destruct impact_table_invariant as [Hcover Hrange]. split.
  - apply (Hcover (Question "uti_risk" "UTI Risk Factors"
                     ["Low Risk"; "Moderate Risk"; "High Risk"]) "High Risk");
      compute_done.
  - apply (Hrange "uti_risk"
             (dict [("Low Risk", Impact 0 0); ("Moderate Risk", Impact (-2) 0);
                    ("High Risk", Impact (-4) 0)])
             "High Risk" (Impact (-4) 0)); vm_compute; reflexivity.
Defined.


(* ===================================================================== *)
(** ** The composite score and the tiers *)
(* ===================================================================== *)

Lemma same_eq (x y : Float64.float) : Float64.same x y = true → x = y.
Proof.
  destruct x as [a|a| |a m e], y as [b|b| |b n f]; simpl; try done.
  - by intros ->%eqb_prop.
  - by intros ->%eqb_prop.
  - intros [[->%eqb_prop ->%Pos.eqb_eq]%andb_prop ->%Z.eqb_eq]%andb_prop.
    done.
Qed.

Lemma forallb_seqZ (f : Z → bool) (lo len k : Z) :
  forallb f (seqZ lo len) = true → lo ≤ k < lo + len → f k = true.
Proof.
  rewrite forallb_forall. intros Hall Hk. apply Hall.
  apply list_elem_of_In, elem_of_seqZ. lia.
Qed.

(** What a successful check of the table gives. *)
Lemma insight_table_ok_spec (lo hi p m : Z) :
  insight_table_ok lo hi = true → lo ≤ p ≤ hi → lo ≤ m ≤ hi →
  weighted_insight p m = of_tenths (6 * p + 4 * m).
Proof.
  unfold insight_table_ok. intros Ht Hp Hm. apply same_eq.
  apply (forallb_seqZ _ _ _ p) in Ht; [|lia].
  apply (forallb_seqZ _ _ _ m) in Ht; [exact Ht|lia].
Qed.

(** On the scores 0..100 the float computation is exact: the result is the
    double nearest to the decimal [(6 p + 4 m) / 10]. *)
Lemma insight_table : insight_table_ok 0 100 = true.
Proof. vm_compute. reflexivity. Qed.

Lemma weighted_insight_tenths (p m : Z) :
  0 ≤ p ≤ 100 → 0 ≤ m ≤ 100 →
  weighted_insight p m = of_tenths (6 * p + 4 * m).
Proof. exact (insight_table_ok_spec 0 100 p m insight_table). Qed.


(** The exact weighted sum of two integer scores is a whole number of
    tenths, so both conventions for a tie round it to itself. *)
Lemma exact_weighted_tenths (p m : Z) :
  tenths_half_even (exact_weighted p m) = 6 * p + 4 * m ∧
  tenths_half_up (exact_weighted p m) = 6 * p + 4 * m.
Proof.
  unfold tenths_half_even, tenths_half_up, Float64.div_half_even.
  set (t := (exact_weighted p m * inject_Z 10)%Q).
  assert (Hn : Qnum t = (6 * p + 4 * m) * 100) by (simpl; lia).
  assert (Hd : Z.pos (Qden t) = 100) by reflexivity.
  rewrite Hn, Hd. split.
  - rewrite Z.mod_mul, Z.div_mul by lia. reflexivity.
  - replace (2 * ((6 * p + 4 * m) * 100) + 100)
      with (100 + (6 * p + 4 * m) * (2 * 100)) by lia.
    rewrite Z.div_add by lia. reflexivity.
Qed.

(** C4: the insight score that [calculate_scores] returns is computed
    from the two clamped scores it returns with them: it is the weighted
    sum [0.6 * physical_score + 0.4 * mental_score], taken exactly and
    rounded to one decimal, as the double nearest to that decimal, whether
    a tie is rounded to even or upwards; and the expression of the code
    gives that value for every pair of clamped scores. *)
Theorem insight_is_rounded_weighted_sum :
  (∀ r : gmap string string,
     ∃ s, calculate_scores r = Ok s ∧
          (0 ≤ physical_score s ≤ 100) ∧ (0 ≤ mental_score s ≤ 100) ∧
          insight_score s
          = weighted_insight (physical_score s) (mental_score s) ∧
          insight_score s
          = of_tenths (tenths_half_even
                         (exact_weighted (physical_score s) (mental_score s))) ∧
          insight_score s
          = of_tenths (tenths_half_up
                         (exact_weighted (physical_score s) (mental_score s)))) ∧
  (∀ p m : Z,
     0 ≤ p ≤ 100 → 0 ≤ m ≤ 100 →
     weighted_insight p m = of_tenths (tenths_half_even (exact_weighted p m)) ∧
     weighted_insight p m = of_tenths (tenths_half_up (exact_weighted p m))).
Proof.
  assert (∀ p m : Z,
            0 ≤ p ≤ 100 → 0 ≤ m ≤ 100 →
            weighted_insight p m
            = of_tenths (tenths_half_even (exact_weighted p m)) ∧
            weighted_insight p m
            = of_tenths (tenths_half_up (exact_weighted p m))) as Hgrid.
  { intros p m Hp Hm. destruct (exact_weighted_tenths p m) as [-> ->].
    split; by apply weighted_insight_tenths. }
  split; [|exact Hgrid].
  intros r. rewrite calculate_scores_eq. cbv zeta.
  eexists. split; [reflexivity|]. simpl.
  split; [lia|]. split; [lia|]. split; [reflexivity|].
  apply Hgrid; lia.
Qed.

Lemma insight_is_rounded_weighted_sum_witness :
  (∃ s, calculate_scores worst_case = Ok s ∧
        insight_score s
        = of_tenths (tenths_half_even
                       (exact_weighted (physical_score s) (mental_score s)))) ∧
  weighted_insight 77 87
    = of_tenths (tenths_half_even (exact_weighted 77 87)) ∧
  weighted_insight 77 87 = of_tenths (tenths_half_up (exact_weighted 77 87)).
Proof.
  destruct insight_is_rounded_weighted_sum as [Hrun Hgrid]. split.
  - destruct (Hrun worst_case) as (s & Hs & _ & _ & _ & Heven & _).
    exists s. split; [exact Hs | exact Heven].
  - apply (Hgrid 77 87); lia.
Defined.

(** The model of [round(x, 1)] on values whose second decimal is a five:
    the binary value decides, and an exact tie goes to the even digit. *)
Example round1_examples :
  Float64.round1 (Float64.literal 25 100) = Float64.literal 2 10 ∧
  Float64.round1 (Float64.literal 35 100) = Float64.literal 3 10 ∧
  Float64.round1 (Float64.literal 45 100) = Float64.literal 5 10 ∧
  Float64.round1 (Float64.literal 75 100) = Float64.literal 8 10 ∧
  Float64.round1 (Float64.literal 5 100) = Float64.literal 1 10 ∧
  Float64.round1 (Float64.literal 15 100) = Float64.literal 1 10.
Proof. repeat split; vm_compute; reflexivity. Qed.

(** *** Tiers *)

Lemma SFltb_trans (x y z : spec_float) :
  SFltb x y = true → SFltb y z = true → SFltb x z = true.
Proof.
  unfold SFltb.
  destruct x as [sx|sx| |sx mx ex], y as [sy|sy| |sy my ey],
           z as [sz|sz| |sz mz ez]; simpl; try done;
    try (by destruct sx); try (by destruct sy); try (by destruct sz);
    try (by destruct sx, sy); try (by destruct sy, sz);
    try (by destruct sx, sz); try (by destruct sx, sy, sz).
  change (Pos.compare_cont Eq mx my) with (mx ?= my)%positive.
  change (Pos.compare_cont Eq my mz) with (my ?= mz)%positive.
  change (Pos.compare_cont Eq mx mz) with (mx ?= mz)%positive.
  destruct sx, sy, sz; simpl; try done;
    destruct (Z.compare_spec ex ey), (Z.compare_spec ey ez),
             (Z.compare_spec ex ez); simpl; try done; try lia;
    destruct (Pos.compare_spec mx my), (Pos.compare_spec my mz),
             (Pos.compare_spec mx mz); simpl; try done; try lia.
Qed.

Lemma lt_trans (x y z : Float64.float) :
  Float64.lt x y = true → Float64.lt y z = true → Float64.lt x z = true.
Proof. apply SFltb_trans. Qed.

(** C2: the tier is a step function of the score with bands closed on
    their lower bound: at least 90 is Independent, from 70 up to 90 is
    Monitor, from 50 up to 70 is Assist, below 50 is Intervene; the six
    boundary values fall as the bands say. *)
Theorem tier_step_function (score : Float64.float) :
  (Float64.ge score (Float64.of_int 90) = true →
     get_insight_tier score = "Independent") ∧
  (Float64.ge score (Float64.of_int 70) = true →
   Float64.lt score (Float64.of_int 90) = true →
     get_insight_tier score = "Monitor") ∧
  (Float64.ge score (Float64.of_int 50) = true →
   Float64.lt score (Float64.of_int 70) = true →
     get_insight_tier score = "Assist") ∧
  (Float64.lt score (Float64.of_int 50) = true →
     get_insight_tier score = "Intervene") ∧
  get_insight_tier (Float64.of_int 90) = "Independent" ∧
  get_insight_tier (Float64.literal 899 10) = "Monitor" ∧
  get_insight_tier (Float64.of_int 70) = "Monitor" ∧
  get_insight_tier (Float64.literal 699 10) = "Assist" ∧
  get_insight_tier (Float64.of_int 50) = "Assist" ∧
  get_insight_tier (Float64.literal 499 10) = "Intervene".
Proof.
  assert (H57 : Float64.lt (Float64.of_int 50) (Float64.of_int 70) = true)
    by reflexivity.
  assert (H79 : Float64.lt (Float64.of_int 70) (Float64.of_int 90) = true)
    by reflexivity.
  unfold get_insight_tier.
  split; [|split; [|split; [|split; [|repeat split; reflexivity]]]].
  - by intros ->.
  - intros H70 H90%lt_not_ge. by rewrite H90, H70.
  - intros H50 H70.
    pose proof (lt_trans _ _ _ H70 H79) as H90.
    apply lt_not_ge in H70, H90. by rewrite H90, H70, H50.
  - intros H50.
    pose proof (lt_trans _ _ _ H50 H57) as H70.
    pose proof (lt_trans _ _ _ H70 H79) as H90.
    apply lt_not_ge in H50, H70, H90. by rewrite H90, H70, H50.
Qed.

Lemma tier_step_function_witness :
  get_insight_tier (Float64.literal 812 10) = "Monitor" ∧
  get_insight_tier (Float64.literal 655 10) = "Assist" ∧
  get_insight_tier (Float64.literal 123 10) = "Intervene".
Proof.
  split; [|split].
  - apply (tier_step_function (Float64.literal 812 10)); reflexivity.
  - apply (tier_step_function (Float64.literal 655 10)); reflexivity.
  - apply (tier_step_function (Float64.literal 123 10)); reflexivity.
Defined.

(** *** Scores on the grid of tenths *)

Lemma tier_table_ok_spec (lo hi k : Z) :
  tier_table_ok lo hi = true → lo ≤ k ≤ hi →
  get_insight_tier (of_tenths k) = tier_of_tenths k.
Proof.
  unfold tier_table_ok. intros Ht Hk. apply String.eqb_eq.
  apply (forallb_seqZ _ _ _ k) in Ht; [exact Ht|lia].
Qed.

Lemma ge_table_ok_spec (bound : Float64.float) (lo hi k : Z) :
  ge_table_ok bound lo hi = true → lo ≤ k ≤ hi →
  Float64.ge (of_tenths k) bound = true.
Proof.
  unfold ge_table_ok. intros Ht Hk.
  apply (forallb_seqZ _ _ _ k) in Ht; [exact Ht|lia].
Qed.

Lemma tier_table : tier_table_ok 0 1000 = true.
Proof. vm_compute. reflexivity. Qed.

Lemma ge_table : ge_table_ok (Float64.of_int 81) 810 1000 = true.
Proof. vm_compute. reflexivity. Qed.

(** A score of [k] tenths falls in the band its integer bounds give. *)
Lemma tier_of_tenths_spec (k : Z) :
  0 ≤ k ≤ 1000 → get_insight_tier (of_tenths k) = tier_of_tenths k.
Proof. exact (tier_table_ok_spec 0 1000 k tier_table). Qed.

(* ===================================================================== *)
(** ** What the questionnaire can reach *)
(* ===================================================================== *)

(** Whatever the responses, the scores stay in the two upper tiers: a
    mapping holds at most one answer per question, and the nine floors of
    the table add up to -23 and -13. *)
Lemma scores_floor (r : gmap string string) :
  ∃ s, calculate_scores r = Ok s ∧
       (-23 ≤ physical_delta s ≤ 0) ∧ (-13 ≤ mental_delta s ≤ 0) ∧
       (77 ≤ physical_score s ≤ 100) ∧ (87 ≤ mental_score s ≤ 100) ∧
       Float64.ge (insight_score s) (Float64.of_int 81) = true ∧
       (tier s = "Independent" ∨ tier s = "Monitor").
Proof.
  rewrite calculate_scores_eq. eexists. split; [reflexivity|]. simpl.
  destruct (total_delta_range r) as [Hp Hm].
  set (p := Z.max 0 (Z.min 100 (100 + (total_delta r).1))).
  set (m := Z.max 0 (Z.min 100 (100 + (total_delta r).2))).
  assert (77 ≤ p ≤ 100) as Hp' by lia.
  assert (87 ≤ m ≤ 100) as Hm' by lia.
  rewrite weighted_insight_tenths by lia.
  repeat split; try lia.
  - apply (ge_table_ok_spec _ 810 1000); [exact ge_table | lia].
  - rewrite tier_of_tenths_spec by lia. unfold tier_of_tenths.
    destruct (Z.leb_spec 900 (6 * p + 4 * m)); [by left|].
    destruct (Z.leb_spec 700 (6 * p + 4 * m)); [by right|lia].
Qed.

(** C10: for every responses mapping that passes validation, the scores
    computed from the validated answers have a physical delta of at least
    -23 and a mental delta of at least -13, hence a physical score of at
    least 77, a mental score of at least 87 and an insight score of at
    least 81.0, and the tier is Independent or Monitor. *)
Theorem valid_responses_stay_high (r : gmap string string) :
  valid r →
  ∃ s, calculate_scores (validate_responses r).1 = Ok s ∧
       -23 ≤ physical_delta s ∧ -13 ≤ mental_delta s ∧
       77 ≤ physical_score s ∧ 87 ≤ mental_score s ∧
       Float64.ge (insight_score s) (Float64.of_int 81) = true ∧
       (tier s = "Independent" ∨ tier s = "Monitor").
Proof.
  intros _.
  destruct (scores_floor (validate_responses r).1)
    as (s & Hs & ? & ? & ? & ? & ? & ?).
  exists s. repeat split; try done; lia.
Qed.

Lemma valid_responses_stay_high_witness :
  valid worst_case ∧
  ∃ s, calculate_scores (validate_responses worst_case).1 = Ok s ∧
       -23 ≤ physical_delta s ∧ -13 ≤ mental_delta s ∧
       77 ≤ physical_score s ∧ 87 ≤ mental_score s ∧
       Float64.ge (insight_score s) (Float64.of_int 81) = true ∧
       (tier s = "Independent" ∨ tier s = "Monitor").
Proof.
  assert (valid worst_case) as Hv by (vm_compute; reflexivity).
  split; [exact Hv|]. exact (valid_responses_stay_high worst_case Hv).
Defined.

(** *** The worst case *)

Lemma worst_case_result :
  calculate_scores worst_case =
  Ok {| physical_score := 77;
        mental_score := 87;
        insight_score := Float64.of_int 81;
        tier := "Monitor";
        physical_delta := -23;
        mental_delta := -13 |}.
Proof. vm_compute. reflexivity. Qed.

(** Each answer of [worst_case] is an option of its question, and no
    other option of that question has a lower delta. *)
Lemma worst_case_highest : Forall (highest_impact worst_case) questions.
Proof.
  unfold questions.
  repeat (apply Forall_cons_2); try apply Forall_nil_2.
  all: eexists; split; [vm_compute; reflexivity|].
  all: split; compute_done.
Qed.

(** The worst case is not clamped to zero: its deltas stay far from -100,
    so the scores are not 0 and the tier is not Intervene. *)
Lemma worst_case_not_zeroed :
  ¬ ∃ s, calculate_scores worst_case = Ok s ∧
         physical_delta s ≤ -100 ∧ mental_delta s ≤ -100 ∧
         physical_score s = 0 ∧ mental_score s = 0 ∧
         insight_score s = Float64.of_int 0 ∧ tier s = "Intervene".
Proof.
  intros (s & Hs & Hp & _). rewrite worst_case_result in Hs.
  injection Hs as <-. simpl in Hp. lia.
Qed.

(** C1, as the code has it: with every question answered by its option of
    highest impact, the deltas sum to -23 and -13, nothing is clamped, and
    the results are a physical score of 77, a mental score of 87, an
    insight score of 81.0 and the tier Monitor. *)
Theorem worst_case_scores :
  Forall (highest_impact worst_case) questions ∧
  ∃ s, calculate_scores worst_case = Ok s ∧
       physical_delta s = -23 ∧ mental_delta s = -13 ∧
       physical_score s = 77 ∧ mental_score s = 87 ∧
       insight_score s = Float64.of_int 81 ∧ tier s = "Monitor".
Proof.
  split; [exact worst_case_highest|].
  rewrite worst_case_result. eexists. split; [reflexivity|]. by simpl.
Qed.

(* ===================================================================== *)
(** ** The care-plan advisor *)
(* ===================================================================== *)

Section Advisor.

Lemma tier_name_nonempty (t : Tier) : tier_name t ≠ EmptyString.
Proof. by destruct t. Qed.

Lemma tier_name_inj (t u : Tier) : tier_name t = tier_name u → t = u.
Proof. by destruct t, u. Qed.

(** The override for a transition into Intervene, on the code's strings:
    any previous value that is neither empty nor [Intervene] triggers it. *)
Lemma intervene_transition (previous : string) :
  previous ≠ EmptyString → previous ≠ "Intervene" →
  get_care_plan_suggestion "Intervene" (Some previous) =
  "Convene multidisciplinary care conference (PCP, PT/OT, social worker); consider long-term-care placement".
Proof.
  intros Hpresent Hdiff. unfold get_care_plan_suggestion, truthy.
  rewrite (bool_decide_eq_false_2 (previous = EmptyString)) by done.
  rewrite (bool_decide_eq_false_2 (Some "Intervene" = Some previous))
    by congruence.
  reflexivity.
Qed.

(** C5: when the previous tier is present and differs from the tier, and
    the tier is Intervene, the advisor returns the recommendation of a
    multidisciplinary care conference, whichever tier the previous one
    was: no other rule is consulted. *)
Theorem intervene_override (previous : Tier) :
  previous ≠ Intervene →
  advise Intervene (Some previous) =
  "Convene multidisciplinary care conference (PCP, PT/OT, social worker); consider long-term-care placement".
Proof.
  intros Hne. apply intervene_transition.
  - apply tier_name_nonempty.
  - intros H. by apply (tier_name_inj previous Intervene) in H.
Qed.

Lemma intervene_override_witness :
  advise Intervene (Some Monitor) =
  "Convene multidisciplinary care conference (PCP, PT/OT, social worker); consider long-term-care placement".
Proof. apply (intervene_override Monitor). discriminate. Defined.

Lemma suggestions_nonempty :
  map_Forall (λ _ text, text ≠ EmptyString) suggestions.
Proof. compute_done. Qed.

(** Whatever strings it is given, the advisor returns some text. *)
Lemma get_care_plan_suggestion_nonempty (tier : string)
    (previous_tier : option string) :
  get_care_plan_suggestion tier previous_tier ≠ EmptyString.
Proof.
  unfold get_care_plan_suggestion, get.
  assert (default "No specific recommendation" (suggestions !! tier)
            ≠ EmptyString) as Hsteady.
  { destruct (suggestions !! tier) as [text|] eqn:E; simpl; [|done].
    exact (map_Forall_lookup_1 _ _ _ _ suggestions_nonempty E). }
  repeat case_match; done.
Qed.

(** C6: the advisor is total on the four tiers and the five previous
    values: it always returns a non-empty string, and when the previous
    tier is absent or equal to the tier it returns the entry of the tier
    in the table of steady-state recommendations. *)
Theorem advise_total (t : Tier) (previous : option Tier) :
  advise t previous ≠ EmptyString ∧
  (previous = None ∨ previous = Some t →
   suggestions !! tier_name t = Some (advise t previous)).
Proof.
  split; [apply get_care_plan_suggestion_nonempty|].
  intros [-> | ->]; by destruct t.
Qed.

Lemma advise_total_witness :
  advise Assist (Some Assist) ≠ EmptyString ∧
  suggestions !! "Assist" = Some (advise Assist (Some Assist)).
Proof.
  destruct (advise_total Assist (Some Assist)) as [Hne Hsteady].
  split; [exact Hne | apply Hsteady; right; reflexivity].
Defined.

End Advisor.

(* ===================================================================== *)
(** ** Validation *)
(* ===================================================================== *)

Section Validation.

Implicit Types (r : gmap string string) (q : question).

(** The loop appends, for each question in turn, the violation it finds. *)
Lemma validate_fold r (qs : list question) valid_responses errors :
  (foldl (validate_step r) (valid_responses, errors) qs).2
  = errors ++ omap (violation r) qs.
Proof.
  revert valid_responses errors.
  induction qs as [|q qs IH]; intros valid_responses errors; simpl.
  - by rewrite app_nil_r.
  - unfold violation at 1, in_list.
    destruct (r !! name q) as [response|].
    + destruct (bool_decide (response ∈ options q)); simpl.
      * apply IH.
      * rewrite IH. by rewrite <- app_assoc.
    + rewrite IH. by rewrite <- app_assoc.
Qed.

Lemma validate_responses_errors r :
  (validate_responses r).2 = omap (violation r) questions.
Proof. unfold validate_responses. by rewrite validate_fold. Qed.

Lemma nonempty_true {A} (l : list A) : l ≠ [] → nonempty l = true.
Proof. by destruct l. Qed.

Lemma length_omap_filter {A B} (f : A → option B) (l : list A) :
  length (omap f l) = length (filter (λ x, is_Some (f x)) l).
Proof.
  induction l as [|x l IH]; simpl; [done|].
  rewrite filter_cons. case_decide as Hx.
  - destruct Hx as [y Hy]. rewrite Hy. simpl. f_equal. apply IH.
  - destruct (f x) as [y|]; [|apply IH]. destruct Hx. by eexists.
Qed.

Context (save_assessment_json save_to_csv generate_pdf :
           assessment_data → ScoreResult → result string)
        (email_body :
           option string → ScoreResult → option string → string → string)
        (send_email :
           option string → string → string → assessment_data → ScoreResult
           → bool).

(** C8: validation reports every violation, not only the first. The
    errors of [validate_responses] are, in the order of the questions, one
    message for each question missing from the mapping and one for each
    question whose value is not among its options; and whenever this list
    is not empty, [process_assessment] returns an error result that lists
    them, so no scores are computed. *)
Theorem validation_reports_every_violation (a : assessment_data) r :
  responses a = Dict r →
  (validate_responses r).2 = omap (violation r) questions ∧
  length (validate_responses r).2
    = length (filter (λ q, is_Some (violation r q)) questions) ∧
  (∀ q, q ∈ questions → r !! name q = None →
     "Missing response for " +:+ name q ∈ (validate_responses r).2) ∧
  (∀ q v, q ∈ questions → r !! name q = Some v → v ∉ options q →
     "Invalid response '" +:+ v +:+ "' for " +:+ name q
       ∈ (validate_responses r).2) ∧
  ((validate_responses r).2 ≠ [] →
   ∃ details,
     process_assessment save_assessment_json save_to_csv generate_pdf
       email_body send_email a
     = ErrorResult "Invalid assessment data" details ∧
     (validate_responses r).2 `suffix_of` details).
Proof.
  intros Hr. rewrite validate_responses_errors.
  split; [done|]. split; [apply length_omap_filter|].
  split; [|split].
  - intros q Hq Hnone. apply list_elem_of_omap. exists q. split; [done|].
    unfold violation. by rewrite Hnone.
  - intros q v Hq Hsome Hbad. apply list_elem_of_omap. exists q.
    split; [done|]. unfold violation. rewrite Hsome.
    by rewrite bool_decide_eq_false_2.
  - intros Herr. unfold process_assessment, process.
    set (errors := validate_assessment_json a).
    assert (∃ front, errors = front ++ omap (violation r) questions)
      as [front Hfront].
    { unfold errors, validate_assessment_json. rewrite Hr.
      rewrite validate_responses_errors. rewrite app_assoc. by eexists. }
    rewrite nonempty_true.
    + exists errors. split; [done|]. by exists front.
    + rewrite Hfront. intros [_ ?]%app_eq_nil. done.
Qed.

End Validation.

Lemma validation_reports_every_violation_witness :
  let r : gmap string string :=
    dict [("fall_risk", "High"); ("uti_risk", "Severe")] in
  (validate_responses r).2 =
    ["Missing response for medication_adherence";
     "Missing response for cognitive_function";
     "Invalid response 'Severe' for uti_risk";
     "Missing response for balance_test";
     "Missing response for driving_safety";
     "Missing response for nighttime_movement";
     "Missing response for social_engagement";
     "Missing response for toilet_flush_count"] ∧
  ∃ details,
    process_assessment (λ _ _, Ok "a.json") (λ _ _, Ok "a.csv")
      (λ _ _, Ok "a.pdf") (λ _ _ _ text, text) (λ _ _ _ _ _, true)
      sample_assessment
    = ErrorResult "Invalid assessment data" details ∧
    (validate_responses r).2 `suffix_of` details.
Proof.
  intros r.
  destruct (validation_reports_every_violation
              (λ _ _, Ok "a.json") (λ _ _, Ok "a.csv") (λ _ _, Ok "a.pdf")
              (λ _ _ _ text, text) (λ _ _ _ _ _, true)
              sample_assessment r eq_refl) as (Herr & _ & _ & _ & Hproc).
  split.
  - rewrite Herr. vm_compute. reflexivity.
  - apply Hproc. rewrite Herr. vm_compute. discriminate.
Defined.

(* ===================================================================== *)
(** ** The tables, read the other way *)
(* ===================================================================== *)

Lemma question_names_NoDup : NoDup question_names.
Proof. compute_done. Qed.

(** The sub-table of each question has exactly the question's options as
    its keys. *)
Lemma sub_tables_exact :
  Forall (λ q, dom <$> event_impacts !! name q
               = Some (list_to_set (options q) : gset string)) questions.
Proof. compute_done. Qed.

Lemma event_impacts_dom :
  dom event_impacts = (list_to_set question_names : gset string).
Proof. compute_done. Qed.

(** An entry that resolves is an option of a question of the list. *)
Lemma resolve_is_option (k x : string) (i : impact) :
  resolve k x = Some i → ∃ q, q ∈ questions ∧ name q = k ∧ x ∈ options q.
Proof.
  intros (sub & Hk & Hx)%resolve_Some.
  assert (k ∈ question_names) as Hin.
  { exact (map_Forall_lookup_1 _ _ _ _ event_impacts_keys Hk). }
  apply list_elem_of_fmap in Hin as (q & -> & Hq).
  exists q. split; [done|]. split; [done|].
  pose proof sub_tables_exact as Hall. rewrite Forall_forall in Hall.
  specialize (Hall q Hq). rewrite Hk in Hall. simpl in Hall.
  injection Hall as Hdom.
  assert (x ∈ dom sub) as Hd by (apply elem_of_dom; by eexists).
  rewrite Hdom in Hd. by apply elem_of_list_to_set in Hd.
Qed.

(** X1: the impact table holds nothing beyond the questionnaire: the
    question names are pairwise distinct, the keys of the table are exactly
    the question names, and the keys of each sub-table are exactly the
    options of its question. *)
Theorem impact_table_exact :
  NoDup question_names ∧
  (∀ k, is_Some (event_impacts !! k) ↔ k ∈ question_names) ∧
  (∀ q sub o, q ∈ questions → event_impacts !! name q = Some sub →
     (is_Some (sub !! o) ↔ o ∈ options q)).
Proof.
  split; [exact question_names_NoDup|]. split.
  - intros k. rewrite <- elem_of_dom, event_impacts_dom.
    apply elem_of_list_to_set.
  - intros q sub o Hq Hsub.
    pose proof sub_tables_exact as Hall. rewrite Forall_forall in Hall.
    specialize (Hall q Hq). rewrite Hsub in Hall. simpl in Hall.
    injection Hall as Hdom.
    rewrite <- elem_of_dom, Hdom. apply elem_of_list_to_set.
Qed.

Lemma impact_table_exact_witness :
  "uti_risk" ∈ question_names ∧
  is_Some ((dict [("Low Risk", Impact 0 0); ("Moderate Risk", Impact (-2) 0);
                  ("High Risk", Impact (-4) 0)] : gmap string impact)
             !! "Low Risk").
Proof.
  destruct impact_table_exact as (_ & Hkeys & Hsub). split.
  - apply Hkeys. compute_done.
  - apply (Hsub (Question "uti_risk" "UTI Risk Factors"
                   ["Low Risk"; "Moderate Risk"; "High Risk"]));
      [compute_done | vm_compute; reflexivity | compute_done].
Defined.

(* ===================================================================== *)
(** ** What [validate_responses] keeps *)
(* ===================================================================== *)

Section Kept.

Implicit Types (r v : gmap string string) (q : question) (k x : string).

(** The first component of the loop: started from a part of [r], it adds
    exactly the entries of [r] that some question accepts. *)
Lemma validate_fold_kept r (qs : list question) v errors k x :
  (∀ k x, v !! k = Some x → r !! k = Some x) →
  (foldl (validate_step r) (v, errors) qs).1 !! k = Some x ↔
  v !! k = Some x ∨
  (r !! k = Some x ∧ ∃ q, q ∈ qs ∧ name q = k ∧ x ∈ options q).
Proof.
  revert v errors. induction qs as [|q qs IH]; intros v errors Hsub; simpl.
  - split; [by left|]. intros [?|(_ & q & []%elem_of_nil & _)]. done.
  - unfold in_list. destruct (r !! name q) as [y|] eqn:Hq.
    + destruct (decide (y ∈ options q)) as [Hy|Hy].
      * rewrite bool_decide_eq_true_2 by done. simpl. rewrite IH.
        -- split.
           ++ intros [Hv|(Hr & q' & Hq' & Hn & Hx)].
              ** destruct (decide (name q = k)) as [<-|Hne].
                 --- rewrite lookup_insert_eq in Hv. injection Hv as <-.
                     right. split; [done|]. exists q.
                     split; [apply list_elem_of_here|done].
                 --- rewrite lookup_insert_ne in Hv by done. by left.
              ** right. split; [done|]. exists q'.
                 split; [by apply list_elem_of_further|done].
           ++ intros [Hv|(Hr & q' & Hq' & Hn & Hx)].
              ** left. destruct (decide (name q = k)) as [<-|Hne].
                 --- apply Hsub in Hv. rewrite Hq in Hv. injection Hv as ->.
                     apply lookup_insert_eq.
                 --- by rewrite lookup_insert_ne.
              ** apply elem_of_cons in Hq' as [->|Hq'].
                 --- left. subst k. rewrite Hq in Hr. injection Hr as ->.
                     apply lookup_insert_eq.
                 --- right. split; [done|]. by exists q'.
        -- intros k' x'. destruct (decide (name q = k')) as [<-|Hne].
           ++ rewrite lookup_insert_eq. by intros [= <-].
           ++ rewrite lookup_insert_ne by done. apply Hsub.
      * rewrite bool_decide_eq_false_2 by done. simpl. rewrite IH by done.
        split; (intros [Hv|(Hr & q' & Hq' & Hn & Hx)]; [by left|]).
        -- right. split; [done|]. exists q'.
           split; [by apply list_elem_of_further|done].
        -- apply elem_of_cons in Hq' as [->|Hq'].
           ++ subst k. rewrite Hq in Hr. injection Hr as ->. done.
           ++ right. split; [done|]. by exists q'.
    + rewrite IH by done.
      split; (intros [Hv|(Hr & q' & Hq' & Hn & Hx)]; [by left|]).
      * right. split; [done|]. exists q'.
        split; [by apply list_elem_of_further|done].
      * apply elem_of_cons in Hq' as [->|Hq'].
        -- subst k. by rewrite Hq in Hr.
        -- right. split; [done|]. by exists q'.
Qed.

(** What is kept, entry by entry. *)
Lemma valid_responses_lookup r k x :
  (validate_responses r).1 !! k = Some x ↔
  r !! k = Some x ∧ ∃ q, q ∈ questions ∧ name q = k ∧ x ∈ options q.
Proof.
  unfold validate_responses. rewrite validate_fold_kept.
  - split; [intros [Hv|H]; [by rewrite lookup_empty in Hv|done] | by right].
  - intros k' x'. by rewrite lookup_empty.
Qed.

(** X2: [valid_responses] is the part of the input that the questionnaire
    accepts: it is a sub-mapping of the input, and a key is kept with its
    value exactly when it is the name of a question and the value is one
    of that question's options; every other entry is dropped. *)
Theorem valid_responses_kept r :
  (validate_responses r).1 ⊆ r ∧
  ∀ k x, (validate_responses r).1 !! k = Some x ↔
         r !! k = Some x ∧ ∃ q, q ∈ questions ∧ name q = k ∧ x ∈ options q.
Proof.
  split; [|apply valid_responses_lookup].
  apply map_subseteq_spec. intros k x H.
  by apply valid_responses_lookup in H as [? _].
Qed.

End Kept.

Section Counting.

Implicit Types (r v : gmap string string) (q : question).

(** Each question either adds an error or adds a kept answer. *)
Lemma validate_fold_count r (qs : list question) v errors :
  NoDup (name <$> qs) → (∀ q, q ∈ qs → v !! name q = None) →
  (length (foldl (validate_step r) (v, errors) qs).2
   + size (foldl (validate_step r) (v, errors) qs).1
   = length errors + size v + length qs)%nat.
Proof.
  revert v errors. induction qs as [|q qs IH]; intros v errors Hnd Hfresh.
  { simpl. lia. }
  rewrite fmap_cons in Hnd. apply NoDup_cons in Hnd as [Hq Hnd].
  assert (v !! name q = None) as Hv by (apply Hfresh, list_elem_of_here).
  assert (∀ q', q' ∈ qs → v !! name q' = None) as Hrest.
  { intros q' Hq'. by apply Hfresh, list_elem_of_further. }
  simpl. destruct (r !! name q) as [y|].
  - destruct (negb (in_list y (options q))).
    + rewrite IH by done. rewrite length_app. simpl. lia.
    + rewrite IH; [|done|].
      * rewrite map_size_insert_None by done. simpl. lia.
      * intros q' Hq'. rewrite lookup_insert_ne; [by apply Hrest|].
        intros Heq. apply Hq. rewrite Heq.
        by apply list_elem_of_fmap_2.
  - rewrite IH by done. rewrite length_app. simpl. lia.
Qed.

(** X3: every question counts once: the number of errors and the number
    of kept answers add up to nine. *)
Theorem validate_responses_partition r :
  (length (validate_responses r).2 + size (validate_responses r).1 = 9)%nat.
Proof.
  unfold validate_responses. rewrite validate_fold_count.
  - rewrite map_size_empty. reflexivity.
  - exact question_names_NoDup.
  - intros q _. apply lookup_empty.
Qed.

Lemma omap_nil_Forall {A B} (f : A → option B) (l : list A) :
  omap f l = [] ↔ Forall (λ x, f x = None) l.
Proof.
  induction l as [|x l IH]; simpl.
  - split; [constructor|done].
  - rewrite Forall_cons. destruct (f x) as [y|]; [|by rewrite IH; tauto].
    split; [done|]. by intros [? _].
Qed.

Lemma violation_None r q : violation r q = None ↔ answered r q.
Proof.
  unfold violation, answered. destruct (r !! name q) as [v|].
  - destruct (decide (v ∈ options q)) as [Hv|Hv].
    + rewrite bool_decide_eq_true_2 by done. split; [by exists v|done].
    + rewrite bool_decide_eq_false_2 by done.
      split; [done|]. by intros (? & [= <-] & ?).
  - split; [done|]. by intros (? & ? & ?).
Qed.

Lemma valid_answered r : valid r ↔ Forall (answered r) questions.
Proof.
  unfold valid. rewrite validate_responses_errors, omap_nil_Forall.
  apply Forall_proper; [|done]. intros q. apply violation_None.
Qed.

(** X4: a responses mapping passes validation exactly when each of the
    nine questions is answered with one of its own options (keys that
    name no question do not matter); and then the validated mapping holds
    the same answer as the input for every question. *)
Theorem valid_iff_answered r :
  (valid r ↔ Forall (answered r) questions) ∧
  (valid r →
   ∀ q, q ∈ questions →
        is_Some (r !! name q) ∧
        (validate_responses r).1 !! name q = r !! name q).
Proof.
  split; [apply valid_answered|].
  intros Hv%valid_answered q Hq. rewrite Forall_forall in Hv.
  destruct (Hv q Hq) as (v & Hr & Hopt). rewrite Hr. split; [eauto|].
  apply valid_responses_lookup. split; [done|]. by exists q.
Qed.

Lemma valid_iff_answered_witness :
  Forall (answered worst_case) questions ∧
  (validate_responses worst_case).1 !! "fall_risk"
  = worst_case !! "fall_risk".
Proof.
  assert (valid worst_case) as Hv by (vm_compute; reflexivity).
  destruct (valid_iff_answered worst_case) as [Hiff Hkept]. split.
  - apply Hiff. exact Hv.
  - apply (Hkept Hv (Question "fall_risk" "Fall Risk Assessment"
                       ["Low"; "Moderate"; "High"])).
    compute_done.
Defined.

End Counting.

(* ===================================================================== *)
(** ** Scores of arbitrary responses *)
(* ===================================================================== *)

Section Filtering.

Implicit Types (r v : gmap string string) (k x q o : string).

(** Two mappings, one a part of the other, have the same sums when the
    entries that only the larger one has resolve to nothing. *)
Lemma total_delta_agree r : ∀ v,
  (∀ k x, v !! k = Some x → r !! k = Some x) →
  (∀ k x, r !! k = Some x → v !! k = None → delta k x = (0, 0)) →
  total_delta v = total_delta r.
Proof.
  induction r as [|q o r Hq IH] using map_ind; intros v Hsub Hrest.
  - assert (v = ∅) as ->; [|done].
    apply map_empty. intros k. destruct (v !! k) as [x|] eqn:E; [|done].
    apply Hsub in E. by rewrite lookup_empty in E.
  - rewrite total_delta_insert by done.
    destruct (v !! q) as [x|] eqn:Hv.
    + assert (x = o) as ->.
      { apply Hsub in Hv. rewrite lookup_insert_eq in Hv. by injection Hv. }
      rewrite (total_delta_delete v q o Hv). f_equal.
      apply IH.
      * intros k x [Hne Hk]%lookup_delete_Some. apply Hsub in Hk.
        by rewrite lookup_insert_ne in Hk.
      * intros k x Hk Hnone.
        assert (q ≠ k) as Hne by congruence.
        rewrite lookup_delete_ne in Hnone by done.
        apply Hrest; [by rewrite lookup_insert_ne|done].
    + rewrite (Hrest q o) by (apply lookup_insert_eq || done).
      rewrite plus2_zero. apply IH.
      * intros k x Hk. assert (q ≠ k) as Hne by congruence.
        apply Hsub in Hk. by rewrite lookup_insert_ne in Hk.
      * intros k x Hk Hnone. assert (q ≠ k) as Hne by congruence.
        apply Hrest; [by rewrite lookup_insert_ne|done].
Qed.

Lemma total_delta_validated r :
  total_delta (validate_responses r).1 = total_delta r.
Proof.
  apply total_delta_agree.
  - intros k x H. by apply valid_responses_lookup in H as [? _].
  - intros k x Hr Hv. unfold delta.
    destruct (resolve k x) as [i|] eqn:E; [|done].
    apply resolve_is_option in E.
    assert ((validate_responses r).1 !! k = Some x) as Hk
      by (by apply valid_responses_lookup).
    congruence.
Qed.

(** X5: validation does not change the scores: the entries that
    [validate_responses] drops are exactly entries that [calculate_scores]
    would skip, so scoring the validated answers and scoring the raw
    mapping give the same result, whatever the mapping. *)
Theorem filtering_preserves_scores r :
  calculate_scores (validate_responses r).1 = calculate_scores r.
Proof.
  rewrite !calculate_scores_eq. cbv zeta.
  by rewrite total_delta_validated.
Qed.

(** The tier of a whole number of tenths grows with the number. *)
Lemma tier_of_tenths_mono (j k : Z) :
  j ≤ k → tier_rank (tier_of_tenths j) ≤ tier_rank (tier_of_tenths k).
Proof.
  intros Hjk. unfold tier_of_tenths.
  destruct (Z.leb_spec 900 j), (Z.leb_spec 900 k),
           (Z.leb_spec 700 j), (Z.leb_spec 700 k),
           (Z.leb_spec 500 j), (Z.leb_spec 500 k);
    try lia; by vm_compute.
Qed.

(** The result of [calculate_scores] in integer terms: within the reach
    of the table nothing is clamped and the float arithmetic is exact. *)
Lemma calculate_scores_exact r :
  let d := total_delta r in
  calculate_scores r =
  Ok {| physical_score := 100 + d.1;
        mental_score := 100 + d.2;
        insight_score := of_tenths (1000 + 6 * d.1 + 4 * d.2);
        tier := tier_of_tenths (1000 + 6 * d.1 + 4 * d.2);
        physical_delta := d.1;
        mental_delta := d.2 |}.
Proof.
  intros d. rewrite calculate_scores_eq. cbv zeta. fold d.
  destruct (total_delta_range r) as [Hp Hm]. fold d in Hp, Hm.
  replace (Z.max 0 (Z.min 100 (100 + d.1))) with (100 + d.1) by lia.
  replace (Z.max 0 (Z.min 100 (100 + d.2))) with (100 + d.2) by lia.
  rewrite weighted_insight_tenths by lia.
  replace (6 * (100 + d.1) + 4 * (100 + d.2)) with (1000 + 6 * d.1 + 4 * d.2)
    by lia.
  rewrite tier_of_tenths_spec by lia. done.
Qed.

(** X6: the clamp of [calculate_scores] never acts and its float
    arithmetic is exact: for every responses mapping each score is 100
    plus its delta, the insight score is the decimal with
    [6 * physical_score + 4 * mental_score] tenths, and the tier is the
    band of that whole number of tenths. *)
Theorem scores_never_clamped r :
  ∃ s, calculate_scores r = Ok s ∧
       physical_score s = 100 + physical_delta s ∧
       mental_score s = 100 + mental_delta s ∧
       insight_score s = of_tenths (6 * physical_score s + 4 * mental_score s) ∧
       tier s = tier_of_tenths (6 * physical_score s + 4 * mental_score s).
Proof.
  rewrite calculate_scores_exact. eexists. split; [reflexivity|]. simpl.
  replace (6 * (100 + (total_delta r).1) + 4 * (100 + (total_delta r).2))
    with (1000 + 6 * (total_delta r).1 + 4 * (total_delta r).2) by lia.
  done.
Qed.

(** X7: one more answer never raises a score: adding an entry for a
    question the mapping does not answer yet changes each score by exactly
    the delta of the entry, which is never positive, and the tier does not
    improve. *)
Theorem answer_never_raises r q o :
  r !! q = None →
  ∃ s s', calculate_scores r = Ok s ∧
          calculate_scores (<[q:=o]> r) = Ok s' ∧
          physical_score s' = physical_score s + (delta q o).1 ∧
          mental_score s' = mental_score s + (delta q o).2 ∧
          physical_score s' ≤ physical_score s ∧
          mental_score s' ≤ mental_score s ∧
          tier_rank (tier s') ≤ tier_rank (tier s).
Proof.
  intros Hq. rewrite !calculate_scores_exact. cbv zeta.
  rewrite total_delta_insert by done.
  destruct (delta_range q o) as [[_ Hp] [_ Hm]].
  do 2 eexists. split; [reflexivity|]. split; [reflexivity|]. simpl.
  repeat split; try lia. apply tier_of_tenths_mono. lia.
Qed.

Lemma answer_never_raises_witness :
  let r : gmap string string := {[ "uti_risk" := "High Risk" ]} in
  ∃ s s', calculate_scores r = Ok s ∧
          calculate_scores (<["fall_risk" := "High"]> r) = Ok s' ∧
          physical_score s' = physical_score s + (delta "fall_risk" "High").1 ∧
          mental_score s' = mental_score s + (delta "fall_risk" "High").2 ∧
          physical_score s' ≤ physical_score s ∧
          mental_score s' ≤ mental_score s ∧
          tier_rank (tier s') ≤ tier_rank (tier s).
Proof.
  intros r. apply (answer_never_raises r "fall_risk" "High"). reflexivity.
Defined.

(** A sum of deltas is zero only if every delta is. *)
Lemma total_delta_zero r :
  total_delta r = (0, 0) ↔ map_Forall (λ q o, delta q o = (0, 0)) r.
Proof.
  split.
  - induction r as [|q o r Hq IH] using map_ind; intros Hsum.
    + apply map_Forall_empty.
    + rewrite total_delta_insert in Hsum by done.
      destruct (delta_range q o) as [[_ Hp] [_ Hm]].
      destruct (total_delta_range r) as [[_ Hp'] [_ Hm']].
      unfold plus2 in Hsum. injection Hsum as H1 H2.
      apply map_Forall_insert; [done|]. split.
      * destruct (delta q o) as [a b]. simpl in *. f_equal; lia.
      * apply IH. destruct (total_delta r) as [a b]. simpl in *.
        f_equal; lia.
  - intros Hall. apply total_delta_unresolved. intros q o Hq.
    exact (map_Forall_lookup_1 _ _ _ _ Hall Hq).
Qed.

(** X8: the perfect result (both scores 100, insight score 100.0, tier
    Independent) is returned exactly for the mappings none of whose
    entries carries a deduction. *)
Theorem perfect_iff_no_deduction r :
  calculate_scores r = Ok perfect ↔
  map_Forall (λ q o, delta q o = (0, 0)) r.
Proof.
  rewrite <- total_delta_zero, calculate_scores_exact. cbv zeta.
  split.
  - intros H. injection H as _ _ _ _ H1 H2.
    destruct (total_delta r) as [a b]. simpl in *. f_equal; lia.
  - intros ->. simpl. f_equal.
Qed.

End Filtering.

(* ===================================================================== *)
(** ** The advisor on transitions *)
(* ===================================================================== *)

Section Escalation.

(** X9: the advisor escalates exactly on a decline: the recommendation
    for a tier with a previous tier differs from the steady-state one
    exactly when the tier ranks below the previous one, and then it
    depends on the new tier only, not on the tier the patient came from;
    an unchanged or improved tier gets the steady-state text. *)
Theorem escalation_iff_decline (t p : Tier) :
  (advise t (Some p) ≠ advise t None ↔ rank t < rank p) ∧
  (∀ p', rank t < rank p → rank t < rank p' →
         advise t (Some p') = advise t (Some p)).
Proof.
  split.
  - destruct t, p; split; intros H; try done; try (by vm_compute in H);
      by contradict H.
  - intros p'. destruct t, p, p'; intros H H'; try done;
      by vm_compute in H, H'.
Qed.

Lemma escalation_iff_decline_witness :
  advise Assist (Some Independent) ≠ advise Assist None ∧
  advise Assist (Some Monitor) = advise Assist (Some Independent).
Proof.
  destruct (escalation_iff_decline Assist Independent) as [Hne Hsame].
  split.
  - apply Hne. reflexivity.
  - apply Hsame; reflexivity.
Defined.

Lemma suggestions_dom :
  dom suggestions = (list_to_set tier_names : gset string).
Proof. compute_done. Qed.

(** X10: on the code's strings: a previous tier that is absent, empty or
    equal to the tier gives the steady-state entry of the tier (or the
    default text); and a tier that is none of the four names gets the
    default text whatever the previous tier is. *)
Theorem steady_recommendation (tier : string) (previous_tier : option string) :
  (previous_tier = None ∨ previous_tier = Some EmptyString ∨
   previous_tier = Some tier →
   get_care_plan_suggestion tier previous_tier
   = get suggestions tier "No specific recommendation") ∧
  (tier ∉ tier_names →
   get_care_plan_suggestion tier previous_tier
   = "No specific recommendation").
Proof.
  split.
  - intros [-> | [-> | ->]]; unfold get_care_plan_suggestion; simpl;
      try done.
    rewrite (bool_decide_eq_true_2 (Some tier = Some tier)) by done.
    simpl. by rewrite andb_false_r.
  - intros Hout.
    assert (suggestions !! tier = None) as Hnone.
    { apply not_elem_of_dom. rewrite suggestions_dom.
      by rewrite elem_of_list_to_set. }
    assert (tier ≠ "Monitor" ∧ tier ≠ "Assist" ∧ tier ≠ "Intervene")
      as (H1 & H2 & H3).
    { repeat split; intros ->; apply Hout; compute_done. }
    unfold get_care_plan_suggestion, get. rewrite Hnone. simpl.
    rewrite (bool_decide_eq_false_2 (tier = "Monitor")) by done.
    rewrite (bool_decide_eq_false_2 (tier = "Assist")) by done.
    rewrite (bool_decide_eq_false_2 (tier = "Intervene")) by done.
    simpl. by destruct (_ && _).
Qed.

Lemma steady_recommendation_witness :
  get_care_plan_suggestion "Assist" (Some EmptyString)
  = get suggestions "Assist" "No specific recommendation" ∧
  get_care_plan_suggestion "Critical" (Some "Independent")
  = "No specific recommendation".
Proof.
  split.
  - apply (steady_recommendation "Assist" (Some EmptyString)).
    right. left. reflexivity.
  - apply (steady_recommendation "Critical" (Some "Independent")).
    compute_done.
Defined.

End Escalation.

(* ===================================================================== *)
(** ** The tier grows with the score *)
(* ===================================================================== *)

Lemma SFleb_trans (x y z : spec_float) :
  SFleb x y = true → SFleb y z = true → SFleb x z = true.
Proof.
  unfold SFleb.
  destruct x as [sx|sx| |sx mx ex], y as [sy|sy| |sy my ey],
           z as [sz|sz| |sz mz ez]; simpl; try done;
    try (by destruct sx); try (by destruct sy); try (by destruct sz);
    try (by destruct sx, sy); try (by destruct sy, sz);
    try (by destruct sx, sz); try (by destruct sx, sy, sz).
  change (Pos.compare_cont Eq mx my) with (mx ?= my)%positive.
  change (Pos.compare_cont Eq my mz) with (my ?= mz)%positive.
  change (Pos.compare_cont Eq mx mz) with (mx ?= mz)%positive.
  destruct sx, sy, sz; simpl; try done;
    destruct (Z.compare_spec ex ey), (Z.compare_spec ey ez),
             (Z.compare_spec ex ez); simpl; try done; try lia;
    destruct (Pos.compare_spec mx my), (Pos.compare_spec my mz),
             (Pos.compare_spec mx mz); simpl; try done; try lia.
Qed.

Lemma ge_trans (x y z : Float64.float) :
  Float64.ge x y = true → Float64.ge y z = true → Float64.ge x z = true.
Proof. unfold Float64.ge. intros Hxy Hyz. exact (SFleb_trans z y x Hyz Hxy). Qed.

(** X11: [get_insight_tier] is monotone: a score that is at least
    another score (as floats compare) never gets a lower tier. *)
Theorem tier_monotone (x y : Float64.float) :
  Float64.ge y x = true →
  tier_rank (get_insight_tier x) ≤ tier_rank (get_insight_tier y).
Proof.
  intros Hyx. unfold get_insight_tier.
  destruct (Float64.ge x (Float64.of_int 90)) eqn:H90.
  { rewrite (ge_trans y x _ Hyx H90). by vm_compute. }
  destruct (Float64.ge x (Float64.of_int 70)) eqn:H70.
  { rewrite (ge_trans y x _ Hyx H70).
    destruct (Float64.ge y (Float64.of_int 90)); by vm_compute. }
  destruct (Float64.ge x (Float64.of_int 50)) eqn:H50.
  { rewrite (ge_trans y x _ Hyx H50).
    destruct (Float64.ge y (Float64.of_int 90)),
             (Float64.ge y (Float64.of_int 70)); by vm_compute. }
  destruct (Float64.ge y (Float64.of_int 90)),
           (Float64.ge y (Float64.of_int 70)),
           (Float64.ge y (Float64.of_int 50)); by vm_compute.
Qed.

Lemma tier_monotone_witness :
  tier_rank (get_insight_tier (Float64.literal 699 10))
  ≤ tier_rank (get_insight_tier (Float64.of_int 70)).
Proof.
  apply (tier_monotone (Float64.literal 699 10) (Float64.of_int 70)).
  reflexivity.
Defined.

(* ===================================================================== *)
(** ** The document and the processing pipeline *)
(* ===================================================================== *)

Section Pipeline.

Implicit Types (a : assessment_data) (r : gmap string string).

Lemma accepted_well_formed a :
  validate_assessment_json a = [] ↔ well_formed a.
Proof.
  unfold validate_assessment_json, well_formed, valid.
  destruct a as [[ts|] [| |p] [| |r] id]; simpl;
    try (destruct (email p) as [e|] eqn:He; simpl);
    (split; [intros H | intros ([? ?] & p' & r' & Hp & [e' He'] & Hr & Hv)]);
    simplify_eq; try done.
  split; [eauto|]. exists p, r. rewrite He. eauto.
Qed.

(** X12: [validate_assessment_json] reports nothing exactly for the
    documents that have a timestamp, a patient object with an email and a
    responses object in which every question is answered with one of its
    options. *)
Theorem accepted_iff_well_formed a :
  validate_assessment_json a = [] ↔
  is_Some (timestamp a) ∧
  ∃ p r, patient a = Dict p ∧ is_Some (email p) ∧
         responses a = Dict r ∧ Forall (answered r) questions.
Proof.
  rewrite accepted_well_formed. unfold well_formed.
  split; intros (Hts & p & r & Hp & He & Hr & Hv); (split; [done|]);
    exists p, r; repeat split; try done; by apply valid_answered.
Qed.

Context (save_assessment_json save_to_csv generate_pdf :
           assessment_data → ScoreResult → result string)
        (email_body :
           option string → ScoreResult → option string → string → string)
        (send_email :
           option string → string → string → assessment_data → ScoreResult
           → bool).

(** A rejected document: the result is the error result that lists the
    errors of [validate_assessment_json]. *)
Lemma process_rejected a :
  validate_assessment_json a ≠ [] →
  process_assessment save_assessment_json save_to_csv generate_pdf
    email_body send_email a
  = ErrorResult "Invalid assessment data" (validate_assessment_json a).
Proof.
  intros Herr. unfold process_assessment, process.
  by rewrite nonempty_true.
Qed.

(** An accepted document: the responses are scored as they are, the
    three writers run in turn, and the mail is attempted last. *)
Lemma process_accepted a :
  well_formed a →
  ∃ p r s,
    patient a = Dict p ∧ responses a = Dict r ∧
    calculate_scores r = Ok s ∧
    process_assessment save_assessment_json save_to_csv generate_pdf
      email_body send_email a
    = match save_assessment_json a s with
      | Raise e => ProcessingFailed e
      | Ok _ =>
          match save_to_csv a s with
          | Raise e => ProcessingFailed e
          | Ok _ =>
              match generate_pdf a s with
              | Raise e => ProcessingFailed e
              | Ok pdf_file =>
                  Success
                    (send_email (email p)
                       "Remote Home Check Assessment Results"
                       (email_body (patient_name p) s (previous_tier p)
                          (get_care_plan_suggestion (tier s)
                             (previous_tier p)))
                       a s)
                    (assessment_id a) s pdf_file
              end
          end
      end.
Proof.
  intros Hwf. pose proof (proj2 (accepted_well_formed a) Hwf) as Hnil.
  destruct Hwf as (_ & p & r & Hp & _ & Hr & Hv).
  destruct (scores_floor r) as (s & Hs & _).
  exists p, r, s. repeat split; try done.
  unfold process_assessment, process. rewrite Hnil, Hp, Hr. simpl.
  unfold valid in Hv.
  assert (calculate_scores (validate_responses r).1 = Ok s) as Hs'.
  { rewrite <- Hs, !calculate_scores_eq. cbv zeta.
    by rewrite total_delta_validated. }
  destruct (validate_responses r) as [v errs]. simpl in Hv, Hs'.
  subst errs. simpl. rewrite Hs'. simpl.
  destruct (save_assessment_json a s) as [j|e]; simpl; [|done].
  destruct (save_to_csv a s) as [c|e]; simpl; [|done].
  by destruct (generate_pdf a s) as [pdf|e].
Qed.

(** X13: the success path. For an accepted document whose three writers
    return, [process_assessment] reports success with the scores of the
    responses as submitted, the assessment id of the document and the PDF
    file name; the tier is Independent or Monitor; whether the mail could
    be sent only sets the flag [email_sent]. *)
Theorem accepted_document_succeeds a p r s (json_file csv_file pdf_file : string) :
  well_formed a → patient a = Dict p → responses a = Dict r →
  calculate_scores r = Ok s →
  save_assessment_json a s = Ok json_file →
  save_to_csv a s = Ok csv_file →
  generate_pdf a s = Ok pdf_file →
  process_assessment save_assessment_json save_to_csv generate_pdf
    email_body send_email a
  = Success
      (send_email (email p) "Remote Home Check Assessment Results"
         (email_body (patient_name p) s (previous_tier p)
            (get_care_plan_suggestion (tier s) (previous_tier p)))
         a s)
      (assessment_id a) s pdf_file ∧
  (tier s = "Independent" ∨ tier s = "Monitor").
Proof.
  intros Hwf Hp Hr Hs Hj Hc Hpdf.
  destruct (process_accepted a Hwf) as (p' & r' & s' & Hp' & Hr' & Hs' & ->).
  assert (p' = p) as -> by congruence.
  assert (r' = r) as -> by congruence.
  assert (s' = s) as -> by congruence.
  rewrite Hj, Hc, Hpdf. split; [done|].
  destruct (scores_floor r) as (s0 & Hs0 & _ & _ & _ & _ & _ & Htier).
  by assert (s0 = s) as <- by congruence.
Qed.

(** X14: the result [Invalid responses] is never returned. Whenever the
    dictionary that [process_assessment] returns has the key [error], its
    value is either [Invalid assessment data], and then the result is the
    one of the first validation, with the non-empty error list of
    [validate_assessment_json] as its details, or [Processing failed];
    the second check of the responses never answers. *)
Theorem error_only_from_validation a (error : string) :
  error_key (process_assessment save_assessment_json save_to_csv
               generate_pdf email_body send_email a)
  = Some error →
  error ≠ "Invalid responses" ∧
  ((error = "Invalid assessment data" ∧
    validate_assessment_json a ≠ [] ∧
    process_assessment save_assessment_json save_to_csv generate_pdf
      email_body send_email a
    = ErrorResult "Invalid assessment data" (validate_assessment_json a)) ∨
   (error = "Processing failed" ∧
    ∃ e, process_assessment save_assessment_json save_to_csv generate_pdf
           email_body send_email a
         = ProcessingFailed e)).
Proof.
  intros Hkey.
  destruct (decide (validate_assessment_json a = [])) as [Hnil|Herr].
  - apply accepted_well_formed in Hnil.
    destruct (process_accepted a Hnil) as (p & r & s & _ & _ & _ & Heq).
    rewrite Heq in Hkey |- *.
    destruct (save_assessment_json a s) as [?|e1];
      [|injection Hkey as <-; split; [done|right; eauto]].
    destruct (save_to_csv a s) as [?|e2];
      [|injection Hkey as <-; split; [done|right; eauto]].
    destruct (generate_pdf a s) as [?|e3];
      [done|injection Hkey as <-; split; [done|right; eauto]].
  - rewrite (process_rejected a Herr) in Hkey |- *.
    injection Hkey as <-. split; [done|]. by left.
Qed.

(** A failure on an object: the document was accepted and the exception
    is the one a writer raised. *)
Lemma process_failed a (e : exn) :
  process_assessment save_assessment_json save_to_csv generate_pdf
    email_body send_email a
  = ProcessingFailed e →
  well_formed a ∧
  ∃ r s, responses a = Dict r ∧ calculate_scores r = Ok s ∧
         (save_assessment_json a s = Raise e ∨
          save_to_csv a s = Raise e ∨
          generate_pdf a s = Raise e).
Proof.
  intros Hrun.
  destruct (decide (validate_assessment_json a = [])) as [Hnil|Herr].
  - apply accepted_well_formed in Hnil. split; [done|].
    destruct (process_accepted a Hnil) as (p & r & s & _ & Hr & Hs & Heq).
    rewrite Heq in Hrun. exists r, s. split; [done|]. split; [done|].
    destruct (save_assessment_json a s) as [?|e1];
      [|injection Hrun as ->; by left].
    destruct (save_to_csv a s) as [?|e2];
      [|injection Hrun as ->; by right; left].
    destruct (generate_pdf a s) as [?|e3];
      [done|injection Hrun as ->; by right; right].
  - by rewrite (process_rejected a Herr) in Hrun.
Qed.

(** X15: the causes of [Processing failed], for any JSON value handed to
    [process_assessment]. On a JSON object, validation and scoring never
    fail the processing: the document was accepted and the detail is the
    exception that one of the three writers raised. On any other value
    the failure is the [TypeError] of [validate_assessment_json]: of the
    membership test on [null], a boolean or a number, or of the subscript
    on a string or an array that contains [patient] or [responses]; and
    each such value does end in [Processing failed]. *)
Theorem processing_failure_causes (d : Document.document) :
  (∀ e,
     Document.process_document save_assessment_json save_to_csv
       generate_pdf email_body send_email d
     = ProcessingFailed e →
     (∃ a, d = Document.Object a ∧ well_formed a ∧
           ∃ r s, responses a = Dict r ∧ calculate_scores r = Ok s ∧
                  (save_assessment_json a s = Raise e ∨
                   save_to_csv a s = Raise e ∨
                   generate_pdf a s = Raise e)) ∨
     (e = Exception "TypeError" ∧
      (d = Document.Scalar ∨
       ∃ has, d = Document.Sequence has ∧
              (has "patient" = true ∨ has "responses" = true)))) ∧
  (d = Document.Scalar ∨
   (∃ has, d = Document.Sequence has ∧
           (has "patient" = true ∨ has "responses" = true)) →
   Document.process_document save_assessment_json save_to_csv
     generate_pdf email_body send_email d
   = ProcessingFailed (Exception "TypeError")).
Proof.
  split.
  - intros e Hrun. destruct d as [|has|a].
    + right. simpl in Hrun. injection Hrun as <-. split; [done|by left].
    + right. unfold Document.process_document, Document.validate_document
        in Hrun. simpl in Hrun.
      destruct (has "patient") eqn:Hp.
      { injection Hrun as <-. split; [done|]. right. eauto. }
      destruct (has "responses") eqn:Hr.
      { injection Hrun as <-. split; [done|]. right. eauto. }
      by destruct (has "timestamp").
    + left. exists a. split; [done|]. by apply process_failed.
  - intros [-> | (has & -> & Hhas)]; [done|].
    unfold Document.process_document, Document.validate_document.
    destruct (has "patient"); [done|].
    destruct Hhas as [Hp | ->]; done.
Qed.

End Pipeline.

Lemma complete_assessment_well_formed : well_formed complete_assessment.
Proof.
  split; [by eexists|]. do 2 eexists.
  split; [reflexivity|]. split; [by eexists|]. split; [reflexivity|].
  vm_compute. reflexivity.
Qed.

Lemma accepted_document_succeeds_witness :
  ∃ s, calculate_scores worst_case = Ok s ∧
       process_assessment (λ _ _, Ok "a.json") (λ _ _, Ok "a.csv")
         (λ _ _, Ok "a.pdf") (λ _ _ _ text, text) (λ _ _ _ _ _, false)
         complete_assessment
       = Success false (Some "a-1") s "a.pdf" ∧
       (tier s = "Independent" ∨ tier s = "Monitor").
Proof.
  destruct (scores_floor worst_case) as (s & Hs & _).
  exists s. split; [exact Hs|].
  exact (accepted_document_succeeds
           (λ _ _, Ok "a.json") (λ _ _, Ok "a.csv") (λ _ _, Ok "a.pdf")
           (λ _ _ _ text, text) (λ _ _ _ _ _, false)
           complete_assessment _ worst_case s "a.json" "a.csv" "a.pdf"
           complete_assessment_well_formed eq_refl eq_refl Hs
           eq_refl eq_refl eq_refl).
Defined.

Lemma error_only_from_validation_witness :
  "Invalid assessment data" ≠ "Invalid responses" ∧
  validate_assessment_json sample_assessment ≠ [].
Proof.
  assert (error_key
            (process_assessment (λ _ _, Ok "a.json") (λ _ _, Ok "a.csv")
               (λ _ _, Ok "a.pdf") (λ _ _ _ text, text) (λ _ _ _ _ _, true)
               sample_assessment)
          = Some "Invalid assessment data") as Hkey
    by (vm_compute; reflexivity).
  destruct (error_only_from_validation _ _ _ _ _ _ _ Hkey)
    as (Hdead & [(_ & Hne & _) | (Hfail & _)]).
  - split; [exact Hdead | exact Hne].
  - discriminate Hfail.
Defined.

Lemma processing_failure_causes_witness :
  well_formed complete_assessment ∧
  Document.process_document (λ _ _, Ok "a.json") (λ _ _, Ok "a.csv")
    (λ _ _, Ok "a.pdf") (λ _ _ _ text, text) (λ _ _ _ _ _, true)
    Document.Scalar
  = ProcessingFailed (Exception "TypeError").
Proof.
  split.
  - assert (Document.process_document (λ _ _, Ok "a.json")
              (λ _ _, Raise (Exception "disk full"))
              (λ _ _, Ok "a.pdf") (λ _ _ _ text, text) (λ _ _ _ _ _, true)
              (Document.Object complete_assessment)
            = ProcessingFailed (Exception "disk full")) as Hrun
      by (vm_compute; reflexivity).
    destruct (proj1 (processing_failure_causes _ _ _ _ _ _) _ Hrun)
      as [(a & Ha & Hwf & _) | (He & _)].
    + injection Ha as <-. exact Hwf.
    + discriminate He.
  - apply (processing_failure_causes (λ _ _, Ok "a.json")
             (λ _ _, Ok "a.csv") (λ _ _, Ok "a.pdf") (λ _ _ _ text, text)
             (λ _ _ _ _ _, true) Document.Scalar).
    left. reflexivity.
Defined.

(* ===================================================================== *)
(** ** Mail *)
(* ===================================================================== *)

Section MailGuard.

Variable deliver :
  Mail.smtp_config → option string → string → string → assessment_data →
  ScoreResult → result unit.

(** X16: the guard of [send_email] is stricter than the flag that the
    route [/check-smtp] reports, by the port: mail is attempted exactly
    when the flag is set and the port is a non-zero number; so whenever
    the route reports an unconfigured server, [send_email] returns
    [False] without attempting delivery. *)
Theorem mail_guard_stricter (c : Mail.smtp_config) :
  (Mail.smtp_missing c = false ↔
   Mail.check_smtp_configured c = true ∧
   Mail.truthy_int (Mail.port c) = true) ∧
  (Mail.check_smtp_configured c = false →
   ∀ to_email subject body a s,
     Mail.send_email deliver c to_email subject body a s = false).
Proof.
  assert (Mail.smtp_missing c
          = negb (Mail.check_smtp_configured c
                  && Mail.truthy_int (Mail.port c))) as Hguard.
  { unfold Mail.smtp_missing, Mail.check_smtp_configured, Mail.has_keys.
    destruct c as [[sv|] [pt|] [us|] [pw|]]; cbn; try done;
      repeat match goal with
             | |- context [bool_decide (?x = EmptyString)] =>
                 generalize (bool_decide (x = EmptyString)); intros []
             | |- context [?n =? 0] => generalize (n =? 0); intros []
             end; done. }
  split.
  - rewrite Hguard, negb_false_iff. apply andb_true_iff.
  - intros Hflag to_email subject body a s. unfold Mail.send_email.
    by rewrite Hguard, Hflag.
Qed.

End MailGuard.

Lemma mail_guard_stricter_witness :
  Mail.send_email (λ _ _ _ _ _ _, Ok ()) fallback_config
    (Some "patient@example.org") "subject" "body" complete_assessment perfect
  = false.
Proof.
  apply (mail_guard_stricter (λ _ _ _ _ _ _, Ok ()) fallback_config).
  reflexivity.
Defined.

Section MailInPipeline.

Context (save_assessment_json save_to_csv generate_pdf :
           assessment_data → ScoreResult → result string)
        (email_body :
           option string → ScoreResult → option string → string → string)
        (deliver :
           Mail.smtp_config → option string → string → string →
           assessment_data → ScoreResult → result unit).

(** X17: mail is no condition of success. With [send_email] as the code
    has it, an accepted document whose writers return is reported as a
    success with its scores and PDF, and the flag [email_sent] is false,
    whenever the mail configuration is incomplete or the delivery
    raises. *)
Theorem mail_failure_keeps_result (c : Mail.smtp_config) a r s
    (json_file csv_file pdf_file : string) :
  well_formed a → responses a = Dict r → calculate_scores r = Ok s →
  save_assessment_json a s = Ok json_file →
  save_to_csv a s = Ok csv_file →
  generate_pdf a s = Ok pdf_file →
  Mail.smtp_missing c = true ∨
  (∀ to_email subject body, ∃ e,
     deliver c to_email subject body a s = Raise e) →
  process_assessment save_assessment_json save_to_csv generate_pdf
    email_body (Mail.send_email deliver c) a
  = Success false (assessment_id a) s pdf_file.
Proof.
  intros Hwf Hr Hs Hj Hc Hpdf Hmail.
  destruct (process_accepted save_assessment_json save_to_csv generate_pdf
              email_body (Mail.send_email deliver c) a Hwf)
    as (p & r' & s' & _ & Hr' & Hs' & ->).
  assert (r' = r) as -> by congruence.
  assert (s' = s) as -> by congruence.
  rewrite Hj, Hc, Hpdf. f_equal. unfold Mail.send_email.
  destruct Hmail as [-> | Hraise]; [done|].
  destruct (Mail.smtp_missing c); [done|].
  by destruct (Hraise (email p) "Remote Home Check Assessment Results"
                 (email_body (patient_name p) s (previous_tier p)
                    (get_care_plan_suggestion (tier s) (previous_tier p))))
    as [e ->].
Qed.

End MailInPipeline.

Lemma mail_failure_keeps_result_witness :
  ∃ s, process_assessment (λ _ _, Ok "a.json") (λ _ _, Ok "a.csv")
         (λ _ _, Ok "a.pdf") (λ _ _ _ text, text)
         (Mail.send_email (λ _ _ _ _ _ _, Ok ()) fallback_config)
         complete_assessment
       = Success false (Some "a-1") s "a.pdf".
Proof.
  destruct (scores_floor worst_case) as (s & Hs & _).
  exists s.
  exact (mail_failure_keeps_result
           (λ _ _, Ok "a.json") (λ _ _, Ok "a.csv") (λ _ _, Ok "a.pdf")
           (λ _ _ _ text, text) (λ _ _ _ _ _ _, Ok ()) fallback_config
           complete_assessment worst_case s "a.json" "a.csv" "a.pdf"
           complete_assessment_well_formed eq_refl Hs
           eq_refl eq_refl eq_refl (or_introl eq_refl)).
Defined.

(* ===================================================================== *)
(** ** Scorer and advisor together *)
(* ===================================================================== *)

(** X18: what the advisor says about a scored assessment. The tier of
    a result is Independent or Monitor, and the care-plan suggestion
    computed from it is the balance-assessment text exactly for a patient
    who moved from Independent to Monitor, and the steady-state entry of
    the tier in every other case; the two texts differ, and the
    escalations for Assist and Intervene are never issued. *)
Theorem suggestions_for_scored (r : gmap string string)
    (previous : option string) :
  ∃ s steady,
    calculate_scores r = Ok s ∧
    (tier s = "Independent" ∨ tier s = "Monitor") ∧
    suggestions !! tier s = Some steady ∧
    steady ≠ balance_text ∧
    get_care_plan_suggestion (tier s) previous
    = (if bool_decide (tier s = "Monitor" ∧ previous = Some "Independent")
       then balance_text else steady).
Proof.
  destruct (scores_floor r) as (s & Hs & _ & _ & _ & _ & _ & Htier).
  exists s. unfold get_care_plan_suggestion.
  destruct Htier as [Ht | Ht]; rewrite Ht.
  - eexists. split; [done|]. split; [by left|].
    split; [reflexivity|]. split; [done|].
    rewrite (bool_decide_eq_false_2 (_ ∧ _)) by (by intros [? _]).
    by destruct (truthy previous && _).
  - eexists. split; [done|]. split; [by right|].
    split; [reflexivity|]. split; [done|].
    destruct (decide (previous = Some "Independent")) as [-> | Hne].
    + done.
    + rewrite (bool_decide_eq_false_2 (_ ∧ _)) by (by intros [_ ?]).
      rewrite (bool_decide_eq_false_2 _ Hne).
      by destruct (truthy previous && _).
Qed.

(* ===================================================================== *)
(** ** Validating twice *)
(* ===================================================================== *)

(** X19: the validated answers are a fixed point of validation: a second
    pass keeps every one of them, and reports as many errors as the first
    pass did. *)
Theorem validate_responses_idempotent (r : gmap string string) :
  (validate_responses (validate_responses r).1).1 = (validate_responses r).1 ∧
  length (validate_responses (validate_responses r).1).2
  = length (validate_responses r).2.
Proof.
  assert ((validate_responses (validate_responses r).1).1
          = (validate_responses r).1) as Hfix.
  { apply map_eq. intros k. apply option_eq. intros x.
    rewrite (valid_responses_lookup (validate_responses r).1).
    rewrite (valid_responses_lookup r). tauto. }
  split; [done|].
  pose proof (validate_fold_count (validate_responses r).1 questions ∅ [])
    as H2.
  pose proof (validate_fold_count r questions ∅ []) as H1.
  fold (validate_responses (validate_responses r).1) in H2.
  fold (validate_responses r) in H1.
  rewrite Hfix in H2.
  specialize (H1 question_names_NoDup (λ q _, lookup_empty _)).
  specialize (H2 question_names_NoDup (λ q _, lookup_empty _)).
  lia.
Qed.

(* ===================================================================== *)
(** ** The CSV row *)
(* ===================================================================== *)

Section CsvRow.

Import Csv.

(** X20: every row that [save_to_csv] writes has the same 22 columns in
    the same order, the thirteen fixed ones and then one per question, so
    rows appended to the master file line up with its header; no question
    overwrites a fixed column: the score columns hold the scores, and the
    column of each question holds the submitted answer, or the empty
    string for a question left out; for responses that pass validation
    this is the validated answer. *)
Theorem csv_row_columns (assessment_id processed_at : string)
    (age gender : cell) (a : assessment_data) (s : ScoreResult) (d : row) :
  csv_row assessment_id processed_at age gender a s = Ok d →
  d.*1 = fieldnames ∧ NoDup d.*1 ∧
  column "physical_score" d = Some (Int (physical_score s)) ∧
  column "mental_score" d = Some (Int (mental_score s)) ∧
  column "insight_score" d = Some (Float (insight_score s)) ∧
  column "tier" d = Some (Text (tier s)) ∧
  ∃ r, field_get (responses a) ∅ = Ok r ∧
       Forall (λ q, column (name q) d
                    = Some (Text (get r (name q) EmptyString))) questions ∧
       (valid r →
        Forall (λ q, column (name q) d
                     = Text <$> (validate_responses r).1 !! name q)
               questions).
Proof.
  unfold csv_row. intros Hrow.
  destruct (field_get (patient a) no_patient) as [p|] eqn:Hp; [|done].
  destruct (field_get (responses a) ∅) as [r|] eqn:Hr; [|done].
  simpl in Hrow. injection Hrow as <-.
  split; [reflexivity|]. split; [compute_done|].
  repeat (split; [reflexivity|]).
  exists r. split; [done|].
  match goal with |- ?P ∧ _ => assert P as Hcols end.
  { unfold questions. repeat (apply Forall_cons_2; [reflexivity|]).
    apply Forall_nil_2. }
  split; [exact Hcols|].
  intros Hv%valid_answered. rewrite Forall_forall in Hcols, Hv.
  apply Forall_forall. intros q Hq.
  destruct (Hv q Hq) as (v & Hlook & Hopt).
  rewrite (Hcols q Hq). unfold get. rewrite Hlook.
  assert ((validate_responses r).1 !! name q = Some v) as ->; [|done].
  apply valid_responses_lookup. split; [done|]. by exists q.
Qed.

Lemma csv_row_columns_witness :
  ∃ d, csv_row "id-1" "2024-01-01T00:00:01" (Int 81) (Text "F")
         complete_assessment perfect = Ok d ∧
       d.*1 = fieldnames ∧ column "tier" d = Some (Text "Independent").
Proof.
  eexists. split; [reflexivity|].
  destruct (csv_row_columns "id-1" "2024-01-01T00:00:01" (Int 81) (Text "F")
              complete_assessment perfect _ eq_refl)
    as (Hcols & _ & _ & _ & _ & Htier & _).
  split; [exact Hcols | exact Htier].
Defined.

End CsvRow.
